(** * AWS persistent-disk volume plugin (pkg/volume/aws_pd/aws_pd.go)

    A shallow embedding of the plugin's path mapping
    ([makeGlobalPDName], [getPdNameFromGlobalMount]) and of its two
    orchestration routines ([SetUpAt], [TearDownAt]), with the properties
    the design document states about them.

    The routines talk to three external parties: the disk manager, the
    mounter and the operating system.  They are embedded as programs over
    those calls; a run of a program against an arbitrary environment
    yields the returned value, the list of calls made with their answers,
    and the lines written to the log. *)

From Stdlib Require Import String Ascii List Bool Arith ZArith Lia.
From Stdlib Require Decimal DecimalString DecimalZ DecimalPos.
Import ListNotations.

Local Open Scope list_scope.
Local Open Scope string_scope.

(** ** Go's [strings] package, on byte strings *)

Module strings.

(** [strings.HasPrefix(s, prefix)]. *)
Fixpoint HasPrefix (s prefix : string) {struct prefix} : bool :=
  match prefix, s with
  | EmptyString, _ => true
  | String _ _, EmptyString => false
  | String p prefix', String c s' => Ascii.eqb c p && HasPrefix s' prefix'
  end.

(** [strings.Contains(s, substr)]. *)
Fixpoint Contains (s substr : string) : bool :=
  HasPrefix s substr ||
  match s with
  | EmptyString => false
  | String _ s' => Contains s' substr
  end.

(** The scan of [strings.Replace]: [skip] counts the bytes of a matched
    occurrence of [old] that are still to be passed over, [n] the
    replacements still allowed (negative: no limit). *)
Fixpoint replaceFrom (old new : string) (n : Z) (skip : nat) (s : string) : string :=
  match s with
  | EmptyString =>
      match old with
      | EmptyString => if (n =? 0)%Z then EmptyString else new
      | _ => EmptyString
      end
  | String c s' =>
      match skip with
      | S k => replaceFrom old new n k s'
      | O =>
          if (n =? 0)%Z then s
          else if HasPrefix s old
               then match old with
                    | EmptyString => new ++ String c (replaceFrom old new (n - 1) 0 s')
                    | String _ old' => new ++ replaceFrom old new (n - 1) (String.length old') s'
                    end
               else String c (replaceFrom old new n 0 s')
      end
  end.

(** [strings.Replace(s, old, new, n)]: the first [n] non-overlapping
    occurrences of [old] replaced by [new]; all of them when [n < 0]. *)
Definition Replace (s old new : string) (n : Z) : string :=
  replaceFrom old new n 0 s.

(** [strings.Join(a, sep)]. *)
Fixpoint Join (a : list string) (sep : string) : string :=
  match a with
  | [] => EmptyString
  | [x] => x
  | x :: rest => x ++ sep ++ Join rest sep
  end.

(** [strings.Split(s, "/")]: the elements between the slashes; never the
    empty list. *)
Fixpoint SplitSlash (s : string) : list string :=
  match s with
  | EmptyString => [EmptyString]
  | String c s' =>
      if Ascii.eqb c "/"%char then EmptyString :: SplitSlash s'
      else match SplitSlash s' with
           | e :: es => String c e :: es
           | [] => [String c EmptyString]
           end
  end.

(** [strings.Count(s, "/")]. *)
Fixpoint CountSlash (s : string) : nat :=
  match s with
  | EmptyString => 0
  | String c s' => (if Ascii.eqb c "/"%char then 1 else 0) + CountSlash s'
  end.

End strings.

(** ** Go's [error] values *)

(** The two kinds of error the plugin tells apart: a [*os.PathError] or
    [syscall.Errno] coming from the operating system, which
    [os.IsNotExist] inspects, and an error made from a message
    ([fmt.Errorf], [errors.New]). *)
Inductive error : Type :=
| PathError (notExist : bool) (msg : string)
| errorString (msg : string).

Module os.
(** [os.IsNotExist(err)]. *)
Definition IsNotExist (err : error) : bool :=
  match err with
  | PathError notExist _ => notExist
  | errorString _ => false
  end.
End os.

(** ** Go's [path] and [path/filepath] packages (slash-separated paths)

    The plugin calls [path.Join] and [filepath.Rel] of Go's library.
    They are written here after the library's code, element by element:
    where the library moves indices over the bytes of a path, the
    embedding moves over the list of its elements. *)

Module path.

Definition isRooted (p : string) : bool :=
  match p with
  | String c _ => Ascii.eqb c "/"%char
  | EmptyString => false
  end.

(** The element loop of [path.Clean].  [out] is the output written so
    far, as the stack of its elements (last written first).  An empty
    element or [.] is dropped; [..] removes the element written last when
    there is one that is not itself [..], is dropped at the root, and is
    kept otherwise; any other element is written. *)
Fixpoint cleanElems (rooted : bool) (out : list string) (es : list string) : list string :=
  match es with
  | [] => out
  | e :: es' =>
      if (e =? "") || (e =? ".") then cleanElems rooted out es'
      else if e =? ".." then
        match out with
        | top :: out' =>
            if top =? ".." then cleanElems rooted (e :: out) es'
            else cleanElems rooted out' es'
        | [] => if rooted then cleanElems rooted [] es'
                else cleanElems rooted [e] es'
        end
      else cleanElems rooted (e :: out) es'
  end.

(** The text of a cleaned path from its elements. *)
Definition render (rooted : bool) (out : list string) : string :=
  let body := strings.Join (rev out) "/" in
  if rooted then String "/"%char body
  else if body =? "" then "." else body.

(** [path.Clean(path)] (and [filepath.Clean] where the separator is the
    slash): the shortest path naming the same place by lexical processing
    alone. *)
Definition Clean (p : string) : string :=
  if p =? "" then "."
  else render (isRooted p) (cleanElems (isRooted p) [] (strings.SplitSlash p)).

(** [path.Join(elem...)]: leading empty elements are skipped and the rest
    is joined with slashes and cleaned. *)
Fixpoint Join (elem : list string) : string :=
  match elem with
  | [] => ""
  | e :: rest => if e =? "" then Join rest else Clean (strings.Join elem "/")
  end.

End path.

Module filepath.

(** What is left of a path from an element boundary on, as the list of
    the elements; the empty rest is [[]] (and [[""]], after a final
    slash). *)
Definition restElems (s : string) : list string :=
  if s =? "" then [] else strings.SplitSlash s.

Definition isEmptyRest (l : list string) : bool :=
  match l with
  | [] => true
  | [e] => e =? ""
  | _ => false
  end.

Definition restString (l : list string) : string :=
  if isEmptyRest l then "" else strings.Join l "/".

(** The loop of [filepath.Rel] that positions both paths at their first
    differing elements.  The result is the rest of the base, the rest of
    the target, and whether the loop was left by its [break]. *)
Fixpoint firstDiff (base targ : list string) : list string * list string * bool :=
  match base, targ with
  | be :: base', te :: targ' =>
      if isEmptyRest base || isEmptyRest targ then (base, targ, false)
      else if te =? be then firstDiff base' targ'
      else (base, targ, true)
  | _, _ => (base, targ, false)
  end.

(** [".." + "/.." * seps]. *)
Fixpoint dotdots (seps : nat) : string :=
  match seps with
  | O => ".."
  | S k => dotdots k ++ "/.."
  end.

(** [filepath.Rel(basepath, targpath)]: both paths are cleaned; equal
    paths give [.]; a rooted and an unrooted path cannot be related; the
    common leading elements are dropped, and the result goes up once for
    every element left of the base and then down the rest of the target.
    A base that still starts with [..] where the paths part cannot be
    related.  (The wording of the error differs between releases of the
    library; nothing below depends on it.) *)
Definition Rel (basepath targpath : string) : string * option error :=
  let base := path.Clean basepath in
  let targ := path.Clean targpath in
  if targ =? base then (".", None)
  else
    let base := if base =? "." then "" else base in
    if negb (Bool.eqb (path.isRooted base) (path.isRooted targ))
    then ("", Some (errorString ("Rel: can't make " ++ targpath ++ " relative to " ++ basepath)))
    else
      let '(b, t, broke) := firstDiff (restElems base) (restElems targ) in
      if broke && (hd "" b =? "..")
      then ("", Some (errorString ("Rel: can't make " ++ targpath ++ " relative to " ++ basepath)))
      else if negb (isEmptyRest b)
      then (dotdots (strings.CountSlash (restString b))
              ++ (if negb (isEmptyRest t) then "/" ++ restString t else ""), None)
      else (restString t, None).

End filepath.

(** ** The plugin's data *)

Definition awsPersistentDiskPluginName : string := "kubernetes.io/aws-pd".

(** [volume.VolumeHost], as far as the plugin consumes it: the two
    path-producing functions. *)
Record VolumeHost : Type := {
  GetPluginDir : string -> string;
  GetPodVolumeDir : string -> string -> string -> string
}.

Record awsPersistentDiskPlugin : Type := {
  host : VolumeHost
}.

(** The [awsPersistentDisk] struct.  Its three interface fields
    ([manager], [mounter], [diskMounter]) are the environment the
    programs below run against. *)
Record awsPersistentDisk : Type := {
  volName : string;
  podUID : string;
  pdName : string;
  fsType : string;
  partition : string;
  readOnly : bool;
  plugin : awsPersistentDiskPlugin
}.

(** The assignment [pd.pdName = name]. *)
Definition set_pdName (pd : awsPersistentDisk) (name : string) : awsPersistentDisk :=
  {| volName := volName pd; podUID := podUID pd; pdName := name;
     fsType := fsType pd; partition := partition pd; readOnly := readOnly pd;
     plugin := plugin pd |}.

Module mount.
(** Modelled from the spec: the flag constants [Bind] and [ReadOnly] of
    the mount package, which is not part of this file; the values are
    those of Linux's [MS_BIND] and [MS_RDONLY]. *)
Definition FlagBind : N := 4096.
Definition FlagReadOnly : N := 1.
End mount.

(** ** The path mapper *)

Definition makeGlobalPDName (host : VolumeHost) (devName : string) : string :=
  (* Clean up the URI to be more fs-friendly *)
  let name := devName in
  let name := strings.Replace name "://" "/" (-1) in
  path.Join [GetPluginDir host awsPersistentDiskPluginName; "mounts"; name].

(** The call of [strings.Replace] in the reverse mapping has three
    arguments in the source, and no count.  The count is therefore the
    parameter [count] of [getPdNameFromGlobalMountN], whose body is the
    source's otherwise; what is proved about the name returned for an
    identifier is proved for every count that allows a replacement.

    The error of the second check is built by [fmt.Errorf] with the text
    as its format and no operand: it is the text below for a path
    without [%]. *)
Definition getPdNameFromGlobalMountN (count : Z) (host : VolumeHost) (globalPath : string)
  : string * option error :=
  let basePath := path.Join [GetPluginDir host awsPersistentDiskPluginName; "mounts"] in
  let '(rel, err) := filepath.Rel basePath globalPath in
  match err with
  | Some _ => ("", err)
  | None =>
      if strings.Contains rel "../"
      then ("", Some (errorString ("Unexpected mount path: " ++ globalPath)))
      else
        (* Reverse the :// replacement done in makeGlobalPDName *)
        let name := rel in
        let name := if strings.HasPrefix name "aws/"
                    then strings.Replace name "aws/" "aws://" count
                    else name in
        (name, None)
  end.

(** The reverse mapping as tear-down runs it: with count 1, the leading
    occurrence, which is the one the guard [HasPrefix(name, "aws/")] in
    front of the call selects. *)
Definition getPdNameFromGlobalMount (host : VolumeHost) (globalPath : string)
  : string * option error :=
  getPdNameFromGlobalMountN 1 host globalPath.

(** ** Calls to the outside, and programs over them *)

(** One constructor per operation of the disk manager ([pdManager]), of
    the mounter ([mount.Interface], [mount.IsMountPoint],
    [mount.GetMountRefs]) and of the filesystem ([os.MkdirAll],
    [os.Remove]), indexed by the type of what the operation returns. *)
Inductive call : Type -> Type :=
| IsMountPoint (file : string) : call (bool * option error)
| GetMountRefs (mountPath : string) : call (list string * option error)
| Mount (source target fstype : string) (flags : N) (data : string) : call (option error)
| Unmount (target : string) (flags : N) : call (option error)
| MkdirAll (p : string) (perm : N) : call (option error)
| Remove (name : string) : call (option error)
| AttachAndMountDisk (pd : awsPersistentDisk) (globalPDPath : string) : call (option error)
| DetachDisk (pd : awsPersistentDisk) : call (option error).

(** A call that was made, with what it returned. *)
Inductive event : Type :=
| EvIsMountPoint (file : string) (mountpoint : bool) (err : option error)
| EvGetMountRefs (mountPath : string) (refs : list string) (err : option error)
| EvMount (source target fstype : string) (flags : N) (data : string) (err : option error)
| EvUnmount (target : string) (flags : N) (err : option error)
| EvMkdirAll (p : string) (perm : N) (err : option error)
| EvRemove (name : string) (err : option error)
| EvAttachAndMountDisk (pd : awsPersistentDisk) (globalPDPath : string) (err : option error)
| EvDetachDisk (pd : awsPersistentDisk) (err : option error).

Definition Ev {A : Type} (c : call A) : A -> event :=
  match c in call A return A -> event with
  | IsMountPoint file => fun r => EvIsMountPoint file (fst r) (snd r)
  | GetMountRefs mountPath => fun r => EvGetMountRefs mountPath (fst r) (snd r)
  | Mount source target fstype flags data => EvMount source target fstype flags data
  | Unmount target flags => EvUnmount target flags
  | MkdirAll p perm => EvMkdirAll p perm
  | Remove name => EvRemove name
  | AttachAndMountDisk pd globalPDPath => EvAttachAndMountDisk pd globalPDPath
  | DetachDisk pd => EvDetachDisk pd
  end.

(** What is handed to glog. *)
Inductive logArg : Type :=
| AStr (s : string)
| ABool (b : bool)
| AErr (e : option error)
| APd (pd : awsPersistentDisk).

Inductive logLine : Type :=
| Warningf (format : string) (args : list logArg)
| Errorf (format : string) (args : list logArg)
| VInfof (level : nat) (format : string) (args : list logArg)
| VInfo (level : nat) (args : list logArg).

(** Programs: return, make a call and go on with its answer, or write a
    log line and go on. *)
Inductive Prog (R : Type) : Type :=
| Ret (r : R)
| Call {A : Type} (c : call A) (k : A -> Prog R)
| Glog (l : logLine) (k : Prog R).

Arguments Ret {R} r.
Arguments Call {R A} c k.
Arguments Glog {R} l k.

Fixpoint bind {A B : Type} (p : Prog A) (f : A -> Prog B) : Prog B :=
  match p with
  | Ret r => f r
  | Call c k => Call c (fun a => bind (k a) f)
  | Glog l k => Glog l (bind k f)
  end.

Declare Scope prog_scope.
Delimit Scope prog_scope with prog.
Notation "x <~ c ;; k" := (Call c (fun x => k))
  (at level 61, c at next level, right associativity) : prog_scope.
Notation "' pat <~ c ;; k" := (Call c (fun x => match x with pat => k end))
  (at level 61, pat pattern, c at next level, right associativity) : prog_scope.
Notation "'glog' l ;; k" := (Glog l k)
  (at level 61, l at next level, right associativity) : prog_scope.
Notation "p ;;; k" := (bind p (fun _ => k))
  (at level 61, right associativity) : prog_scope.
Local Open Scope prog_scope.

(** The environment answers each call, knowing the calls made so far. *)
Definition env : Type := forall A : Type, list event -> call A -> A.

Record outcome (R : Type) : Type := {
  result : R;
  calls : list event;
  logs : list logLine
}.
Arguments result {R} o.
Arguments calls {R} o.
Arguments logs {R} o.

Fixpoint run {R : Type} (p : Prog R) (e : env) (tr : list event) (lg : list logLine)
  : outcome R :=
  match p with
  | Ret r => {| result := r; calls := tr; logs := lg |}
  | Call c k => let a := e _ tr c in run (k a) e (tr ++ [Ev c a])%list lg
  | Glog l k => run k e tr (lg ++ [l])%list
  end.

(** A run from the start: no call made, nothing logged. *)
Definition exec {R : Type} (p : Prog R) (e : env) : outcome R := run p e [] [].

(** ** The volume: set-up and tear-down *)

Definition detachDiskLogError (pd : awsPersistentDisk) : Prog unit :=
  err <~ DetachDisk pd ;;
  match err with
  | Some _ =>
      glog Warningf "Failed to detach disk: %v (%v)" [APd pd; AErr err] ;;
      Ret tt
  | None => Ret tt
  end.

(** SetUpAt attaches the disk and bind mounts to the volume path. *)
Definition SetUpAt (pd : awsPersistentDisk) (dir : string) : Prog (option error) :=
  '(mountpoint, err) <~ IsMountPoint dir ;;
  glog VInfof 4 "PersistentDisk set up: %s %v %v" [AStr dir; ABool mountpoint; AErr err] ;;
  if match err with Some e => negb (os.IsNotExist e) | None => false end
  then Ret err
  else if mountpoint then Ret None
  else
    let globalPDPath := makeGlobalPDName (host (plugin pd)) (pdName pd) in
    aerr <~ AttachAndMountDisk pd globalPDPath ;;
    match aerr with
    | Some _ => Ret aerr
    | None =>
    let flags := if readOnly pd then mount.FlagReadOnly else 0%N in
    merr <~ MkdirAll dir 488 ;;
    match merr with
    | Some _ =>
        detachDiskLogError pd ;;;
        Ret merr
    | None =>
    (* Perform a bind mount to the full path to allow duplicate mounts of the same PD. *)
    err <~ Mount globalPDPath dir "" (N.lor mount.FlagBind flags) "" ;;
    match err with
    | Some _ =>
        '(mountpoint, mntErr) <~ IsMountPoint dir ;;
        match mntErr with
        | Some _ =>
            glog Errorf "isMountpoint check failed: %v" [AErr mntErr] ;;
            Ret err
        | None =>
        let cleanup : Prog (option error) :=
          _ <~ Remove dir ;;
          detachDiskLogError pd ;;;
          Ret err in
        if mountpoint then
          mntErr <~ Unmount dir 0 ;;
          match mntErr with
          | Some _ =>
              glog Errorf "Failed to unmount: %v" [AErr mntErr] ;;
              Ret err
          | None =>
          '(mountpoint, mntErr) <~ IsMountPoint dir ;;
          match mntErr with
          | Some _ =>
              glog Errorf "isMountpoint check failed: %v" [AErr mntErr] ;;
              Ret err
          | None =>
          if mountpoint then
            (* This is very odd, we don't expect it.  We'll try again next sync loop. *)
            glog Errorf "%s is still mounted, despite call to unmount().  Will try again next sync loop." [AStr dir] ;;
            Ret err
          else cleanup
          end
          end
        else cleanup
        end
    | None => Ret None
    end
    end
    end.

(** The tail of [TearDownAt], from the second mount-status query on.
    [err] is the function's variable of that name, with the value it has
    when control gets here. *)
Definition tearDownRecheck (pd : awsPersistentDisk) (dir : string) (err : option error)
  : Prog (option error * awsPersistentDisk) :=
  '(mountpoint, mntErr) <~ IsMountPoint dir ;;
  match mntErr with
  | Some _ =>
      glog Errorf "isMountpoint check failed: %v" [AErr mntErr] ;;
      Ret (err, pd)
  | None =>
  if negb mountpoint then
    rerr <~ Remove dir ;;
    match rerr with
    | Some _ =>
        glog VInfo 2 [AStr "Error removing mountpoint "; AStr dir; AStr ": "; AErr rerr] ;;
        Ret (rerr, pd)
    | None => Ret (None, pd)
    end
  else Ret (None, pd)
  end.

(** Unmounts the bind mount, and detaches the disk only if the PD
    resource was the last reference to that disk on the kubelet.  The
    receiver is a pointer and [pdName] is assigned on the way, so the
    volume is returned next to the error.  The source hands
    [getPdNameFromGlobalMount] the reference alone; the host it also
    takes is the one of the volume's plugin. *)
Definition TearDownAt (pd : awsPersistentDisk) (dir : string)
  : Prog (option error * awsPersistentDisk) :=
  '(mountpoint, err) <~ IsMountPoint dir ;;
  match err with
  | Some _ =>
      glog VInfo 2 [AStr "Error checking if mountpoint "; AStr dir; AStr ": "; AErr err] ;;
      Ret (err, pd)
  | None =>
  if negb mountpoint then
    glog VInfo 2 [AStr "Not mountpoint, deleting"] ;;
    rerr <~ Remove dir ;;
    Ret (rerr, pd)
  else
  '(refs, err) <~ GetMountRefs dir ;;
  match err with
  | Some _ =>
      glog VInfo 2 [AStr "Error getting mountrefs for "; AStr dir; AStr ": "; AErr err] ;;
      Ret (err, pd)
  | None =>
  (* Unmount the bind-mount inside this pod *)
  uerr <~ Unmount dir 0 ;;
  match uerr with
  | Some _ =>
      glog VInfo 2 [AStr "Error unmounting dir "; AStr dir; AStr ": "; AErr uerr] ;;
      Ret (uerr, pd)
  | None =>
  (* If len(refs) is 1, then all bind mounts have been removed, and the
     remaining reference is the global mount. It is safe to detach. *)
  match refs with
  | [ref0] =>
      (* pd.pdName is not initially set for volume-cleaners, so set it here. *)
      let '(name, err) := getPdNameFromGlobalMount (host (plugin pd)) ref0 in
      let pd := set_pdName pd name in
      match err with
      | Some _ =>
          glog VInfo 2 [AStr "Could not determine pdName from mountpoint "; AStr ref0; AStr ": "; AErr err] ;;
          Ret (err, pd)
      | None =>
      derr <~ DetachDisk pd ;;
      match derr with
      | Some _ =>
          glog VInfo 2 [AStr "Error detaching disk "; AStr (pdName pd); AStr ": "; AErr derr] ;;
          Ret (derr, pd)
      | None => tearDownRecheck pd dir err
      end
      end
  | _ => tearDownRecheck pd dir err
  end
  end
  end
  end.

(** ** What a list of calls shows *)

Definition isAttachAndMountDisk (ev : event) : bool :=
  match ev with EvAttachAndMountDisk _ _ _ => true | _ => false end.

Definition isDetachDisk (ev : event) : bool :=
  match ev with EvDetachDisk _ _ => true | _ => false end.

(** A call to the disk manager, of either kind. *)
Definition isDiskManager (ev : event) : bool :=
  isAttachAndMountDisk ev || isDetachDisk ev.

Definition isMount (ev : event) : bool :=
  match ev with EvMount _ _ _ _ _ _ => true | _ => false end.

Definition isUnmount (ev : event) : bool :=
  match ev with EvUnmount _ _ _ => true | _ => false end.

Definition isRemove (ev : event) : bool :=
  match ev with EvRemove _ _ => true | _ => false end.

Definition isMkdirAll (ev : event) : bool :=
  match ev with EvMkdirAll _ _ _ => true | _ => false end.

(** The error a call came back with. *)
Definition errorOf (ev : event) : option error :=
  match ev with
  | EvIsMountPoint _ _ err => err
  | EvGetMountRefs _ _ err => err
  | EvMount _ _ _ _ _ err => err
  | EvUnmount _ _ err => err
  | EvMkdirAll _ _ err => err
  | EvRemove _ err => err
  | EvAttachAndMountDisk _ _ err => err
  | EvDetachDisk _ err => err
  end.

(** Whether the directory [dir] exists after the calls [tr], given
    whether it existed [before]: a successful [os.MkdirAll] of it creates
    it and a successful [os.Remove] of it removes it; failed calls and
    calls on other things leave it as it was. *)
Definition dirExistsStep (dir : string) (ex : bool) (ev : event) : bool :=
  match ev with
  | EvMkdirAll p _ None => if p =? dir then true else ex
  | EvRemove name None => if name =? dir then false else ex
  | _ => ex
  end.

Definition dirExists (dir : string) (before : bool) (tr : list event) : bool :=
  fold_left (dirExistsStep dir) tr before.

(** ** Scripted environments *)

(** An answer not yet fitted to the call it is given to. *)
Inductive reply : Type :=
| ROk
| RFail (e : error)
| RBool (b : bool)
| RRefs (l : list string).

Definition errOf (r : reply) : option error :=
  match r with RFail e => Some e | _ => None end.

Definition answer {A : Type} (c : call A) (r : reply) : A :=
  match c in call A return A with
  | IsMountPoint _ => (match r with RBool b => b | _ => false end, errOf r)
  | GetMountRefs _ => (match r with RRefs l => l | _ => [] end, errOf r)
  | Mount _ _ _ _ _ => errOf r
  | Unmount _ _ => errOf r
  | MkdirAll _ _ => errOf r
  | Remove _ => errOf r
  | AttachAndMountDisk _ _ => errOf r
  | DetachDisk _ => errOf r
  end.

(** The environment that gives the n-th call the n-th reply of [rs], and
    plain success once the script is used up. *)
Definition script (rs : list reply) : env :=
  fun A tr c => answer c (nth (List.length tr) rs ROk).

(** A host for the examples: the kubelet's usual directories. *)
Definition kubeletHost : VolumeHost := {|
  GetPluginDir := fun name => "/var/lib/kubelet/plugins/" ++ name;
  GetPodVolumeDir := fun uid name vol =>
    "/var/lib/kubelet/pods/" ++ uid ++ "/volumes/" ++ name ++ "/" ++ vol
|}.

(** A volume as [newBuilderInternal] makes it. *)
Definition builderPD : awsPersistentDisk := {|
  volName := "vol1";
  podUID := "poduid";
  pdName := "aws://us-east-1a/vol-0123456789abcdef0";
  fsType := "ext4";
  partition := "";
  readOnly := false;
  plugin := {| host := kubeletHost |}
|}.

(** A volume as [newCleanerInternal] makes it: no disk identifier. *)
Definition cleanerPD : awsPersistentDisk := {|
  volName := "vol1";
  podUID := "poduid";
  pdName := "";
  fsType := "";
  partition := "";
  readOnly := false;
  plugin := {| host := kubeletHost |}
|}.

Definition podDir : string :=
  "/var/lib/kubelet/pods/poduid/volumes/kubernetes.io~aws-pd/vol1".

Definition globalDir : string :=
  "/var/lib/kubelet/plugins/kubernetes.io/aws-pd/mounts/aws/us-east-1a/vol-0123456789abcdef0".

(** The directory of another pod that uses the same disk. *)
Definition otherPodDir : string :=
  "/var/lib/kubelet/pods/otheruid/volumes/kubernetes.io~aws-pd/vol1".

Definition EMOUNT : error := errorString "mount failed: exit status 32".
Definition EIO : error := PathError false "input/output error".
Definition ENOENT : error := PathError true "no such file or directory".
Definition EBUSY : error := PathError false "device or resource busy".
Definition ENOTEMPTY : error := PathError false "directory not empty".

(** ** Clean names and clean paths *)

(** No slash in it: what an element of a path is. *)
Fixpoint slashFree (s : string) : bool :=
  match s with
  | EmptyString => true
  | String c s' => negb (Ascii.eqb c "/"%char) && slashFree s'
  end.

(** An element that [path.Clean] keeps as it is. *)
Definition plainElem (e : string) : bool :=
  negb (e =? "") && negb (e =? ".") && negb (e =? "..").

(** A name whose elements are all kept by [path.Clean]: a relative path
    that is already clean and does not go up. *)
Definition cleanName (name : string) : bool :=
  forallb plainElem (strings.SplitSlash name).

(** The stacks [path.cleanElems] produces: elements without slash, none
    empty or [.], and [..] only at the bottom of a path that is not
    rooted. *)
Fixpoint normal (rooted : bool) (out : list string) : Prop :=
  match out with
  | [] => True
  | x :: out' =>
      slashFree x = true /\ x <> "" /\ x <> "." /\
      (x = ".." -> rooted = false /\ match out' with [] => True | y :: _ => y = ".." end) /\
      normal rooted out'
  end.

(** The cleaned elements of the plugin directory [P]. *)
Definition pluginStack (P : string) : list string :=
  path.cleanElems (path.isRooted P) [] (if P =? "" then [] else strings.SplitSlash P).

(** ** Building the volume *)

Module strconv.
(** [strconv.Itoa(i)]: the decimal digits of [i], most significant
    first, behind a [-] when [i] is negative. *)
Definition Itoa (i : Z) : string :=
  DecimalString.NilZero.string_of_int (Z.to_int i).
End strconv.

Module api.
(** Modelled from the spec: the volume specification [api.Volume], as
    far as the plugin reads it: the volume's name and, when the volume is
    an AWS persistent disk, the disk identifier, the filesystem type, the
    partition number (0: unspecified) and the read-only flag.  The source
    of a volume is a pointer that may be nil. *)
Record AWSPersistentDiskVolumeSource : Type := {
  PDName : string;
  FSType : string;
  Partition : Z;
  ReadOnly : bool
}.

Record Volume : Type := {
  Name : string;
  AWSPersistentDisk : option AWSPersistentDiskVolumeSource
}.
End api.

Definition CanSupport (plugin : awsPersistentDiskPlugin) (spec : api.Volume) : bool :=
  match api.AWSPersistentDisk spec with
  | Some _ => true
  | None => false
  end.

(** [newBuilderInternal] reads through [spec.AWSPersistentDisk] without
    a check: [None] is the nil-pointer panic.  The error it returns next
    to the volume is always nil.  The manager and the mounter it is given
    are the environment the volume's programs run against. *)
Definition newBuilderInternal (plugin : awsPersistentDiskPlugin) (spec : api.Volume)
           (podUID : string) : option awsPersistentDisk :=
  match api.AWSPersistentDisk spec with
  | None => None
  | Some source =>
      let pdName := api.PDName source in
      let fsType := api.FSType source in
      let partition := "" in
      let partition := if negb (api.Partition source =? 0)%Z
                       then strconv.Itoa (api.Partition source)
                       else partition in
      let readOnly := api.ReadOnly source in
      Some {| volName := api.Name spec;
              podUID := podUID;
              pdName := pdName;
              fsType := fsType;
              partition := partition;
              readOnly := readOnly;
              plugin := plugin |}
  end.

(** [newCleanerInternal]: the fields it does not set have Go's zero
    values. *)
Definition newCleanerInternal (plugin : awsPersistentDiskPlugin) (volName podUID : string)
  : awsPersistentDisk :=
  {| volName := volName;
     podUID := podUID;
     pdName := "";
     fsType := "";
     partition := "";
     readOnly := false;
     plugin := plugin |}.

(** ** The volume's own directory *)

Section PodVolumeDir.

(** [util.EscapeQualifiedNameForDisk], which is not part of this file. *)
Variable EscapeQualifiedNameForDisk : string -> string.

Definition GetPath (pd : awsPersistentDisk) : string :=
  let name := awsPersistentDiskPluginName in
  GetPodVolumeDir (host (plugin pd)) (podUID pd) (EscapeQualifiedNameForDisk name) (volName pd).

(** SetUp attaches the disk and bind mounts to the volume path. *)
Definition SetUp (pd : awsPersistentDisk) : Prog (option error) :=
  SetUpAt pd (GetPath pd).

(** Unmounts the bind mount, and detaches the disk only if the PD
    resource was the last reference to that disk on the kubelet. *)
Definition TearDown (pd : awsPersistentDisk) : Prog (option error * awsPersistentDisk) :=
  TearDownAt pd (GetPath pd).

End PodVolumeDir.

(** A volume specification for the examples. *)
Definition diskSpec : api.Volume := {|
  api.Name := "vol1";
  api.AWSPersistentDisk := Some {|
    api.PDName := "aws://us-east-1a/vol-0123456789abcdef0";
    api.FSType := "ext4";
    api.Partition := 0;
    api.ReadOnly := false
  |}
|}.

(** The same disk's third partition, read-only. *)
Definition partitionSpec : api.Volume := {|
  api.Name := "vol2";
  api.AWSPersistentDisk := Some {|
    api.PDName := "aws://us-east-1a/vol-0123456789abcdef0";
    api.FSType := "ext4";
    api.Partition := 3;
    api.ReadOnly := true
  |}
|}.

Definition kubeletPlugin : awsPersistentDiskPlugin := {| host := kubeletHost |}.

(** More of what a list of calls shows. *)
Definition isGetMountRefs (ev : event) : bool :=
  match ev with EvGetMountRefs _ _ _ => true | _ => false end.

(** * Properties *)

Example Clean_1 : path.Clean "abc//def//ghi" = "abc/def/ghi". Proof. reflexivity. Qed.
Example Clean_2 : path.Clean "/../abc/./def/" = "/abc/def". Proof. reflexivity. Qed.
Example Clean_3 : path.Clean "abc/def/../../.." = "..". Proof. reflexivity. Qed.
Example Clean_4 : path.Clean "../../abc/../d" = "../../d". Proof. reflexivity. Qed.
Example Clean_5 : path.Clean "/" = "/". Proof. reflexivity. Qed.
Example Clean_6 : path.Clean "a/.." = ".". Proof. reflexivity. Qed.
Example Rel_1 : filepath.Rel "a/b" "a/b/c/d" = ("c/d", None). Proof. reflexivity. Qed.
Example Rel_2 : filepath.Rel "a/b/c" "a/c/d" = ("../../c/d", None). Proof. reflexivity. Qed.
Example Rel_3 : filepath.Rel "/a/b/c/d" "/a/b/" = ("../..", None). Proof. reflexivity. Qed.
Example Rel_4 : filepath.Rel "ab/cd" "ab/cde" = ("../cde", None). Proof. reflexivity. Qed.
Example Rel_5 : filepath.Rel "." "a/b" = ("a/b", None). Proof. reflexivity. Qed.
Example Rel_6 : fst (filepath.Rel ".." "a") = "". Proof. reflexivity. Qed.
Example Rel_7 : filepath.Rel "/" "/a" = ("a", None). Proof. reflexivity. Qed.
Example Rel_8 : filepath.Rel "/a" "/" = ("..", None). Proof. reflexivity. Qed.
Example Replace_1 : strings.Replace "a://b://c" "://" "/" (-1) = "a/b/c". Proof. reflexivity. Qed.
Example Replace_2 : strings.Replace "aws/x/aws/y" "aws/" "aws://" 1 = "aws://x/aws/y". Proof. reflexivity. Qed.
Example Replace_3 : strings.Replace "abc" "" "X" (-1) = "XaXbXcX". Proof. reflexivity. Qed.
Example Replace_4 : strings.Replace "abc" "" "X" 2 = "XaXbc". Proof. reflexivity. Qed.

Example makeGlobalPDName_builder :
  makeGlobalPDName kubeletHost (pdName builderPD) = globalDir.
Proof. reflexivity. Qed.

Example getPdNameFromGlobalMount_builder :
  getPdNameFromGlobalMount kubeletHost globalDir = (pdName builderPD, None).
Proof. reflexivity. Qed.

(** ** The path mapper: splitting, cleaning, and the way back *)

Lemma append_empty_r (s : string) : s ++ "" = s.
Proof. induction s as [|c s IH]; cbn; [reflexivity | now rewrite IH]. Qed.

Lemma append_assoc (a b c : string) : (a ++ b) ++ c = a ++ (b ++ c).
Proof. induction a as [|x a IH]; cbn; [reflexivity | now rewrite IH]. Qed.

Lemma SplitSlash_nonempty (s : string) : strings.SplitSlash s <> [].
Proof.
  induction s as [|c s IH]; cbn; [discriminate|].
  destruct (Ascii.eqb c "/"); [discriminate|].
  destruct (strings.SplitSlash s); discriminate.
Qed.

Lemma SplitSlash_app_slash (a b : string) :
  strings.SplitSlash (a ++ String "/" b) = (strings.SplitSlash a ++ strings.SplitSlash b)%list.
Proof.
  induction a as [|c a IH]; cbn; [reflexivity|].
  rewrite IH. destruct (Ascii.eqb c "/"); [reflexivity|].
  destruct (strings.SplitSlash a) as [|e es] eqn:E; [|reflexivity].
  now apply SplitSlash_nonempty in E.
Qed.

Lemma SplitSlash_slashFree (e : string) :
  slashFree e = true -> strings.SplitSlash e = [e].
Proof.
  induction e as [|c e IH]; cbn; [reflexivity|].
  destruct (Ascii.eqb c "/"); cbn; [discriminate|].
  intros H. now rewrite (IH H).
Qed.

Lemma SplitSlash_elems_slashFree (s : string) :
  Forall (fun e => slashFree e = true) (strings.SplitSlash s).
Proof.
  induction s as [|c s IH]; cbn; [repeat constructor|].
  destruct (Ascii.eqb c "/") eqn:Ec; [constructor; [reflexivity | exact IH]|].
  destruct (strings.SplitSlash s) as [|e es]; [repeat constructor; cbn; now rewrite Ec|].
  inversion IH as [|? ? He Hes]; subst. constructor; [|exact Hes].
  cbn. now rewrite Ec, He.
Qed.

Lemma Join_cons (x : string) (l : list string) :
  l <> [] -> strings.Join (x :: l) "/" = x ++ String "/" (strings.Join l "/").
Proof. destruct l; [congruence | reflexivity]. Qed.

Lemma Join_SplitSlash (s : string) : strings.Join (strings.SplitSlash s) "/" = s.
Proof.
  induction s as [|c s IH]; [reflexivity|].
  cbn [strings.SplitSlash]. destruct (Ascii.eqb_spec c "/") as [->|Hc].
  - rewrite Join_cons by apply SplitSlash_nonempty. now rewrite IH.
  - destruct (strings.SplitSlash s) as [|e es] eqn:E; [now apply SplitSlash_nonempty in E|].
    destruct es as [|e' es'].
    + cbn in *. now rewrite IH.
    + rewrite Join_cons by discriminate. rewrite Join_cons in IH by discriminate.
      rewrite <- IH. reflexivity.
Qed.

Lemma SplitSlash_Join (l : list string) :
  l <> [] -> Forall (fun e => slashFree e = true) l ->
  strings.SplitSlash (strings.Join l "/") = l.
Proof.
  induction l as [|x l IH]; [congruence|]. intros _ H.
  inversion H as [|? ? Hx Hl]; subst. destruct l as [|y l'].
  - cbn. now apply SplitSlash_slashFree.
  - rewrite Join_cons by discriminate. rewrite SplitSlash_app_slash.
    rewrite (SplitSlash_slashFree _ Hx). rewrite IH; [reflexivity | discriminate | exact Hl].
Qed.

Lemma cleanElems_app (r : bool) (a b out : list string) :
  path.cleanElems r out (a ++ b) = path.cleanElems r (path.cleanElems r out a) b.
Proof.
  revert out. induction a as [|e a IH]; intros out; cbn; [reflexivity|].
  destruct ((e =? "") || (e =? ".")); [apply IH|].
  destruct (e =? ".."); [|apply IH].
  destruct out as [|top out']; [destruct r; apply IH|].
  destruct (top =? ".."); apply IH.
Qed.

Lemma plainElem_spec (e : string) :
  plainElem e = true <-> e <> "" /\ e <> "." /\ e <> "..".
Proof.
  unfold plainElem. rewrite !andb_true_iff, !negb_true_iff, !String.eqb_neq. tauto.
Qed.

Lemma cleanElems_plain (r : bool) (es out : list string) :
  Forall (fun e => plainElem e = true) es ->
  path.cleanElems r out es = (rev es ++ out)%list.
Proof.
  intros H. revert out. induction H as [|e es He _ IH]; intros out; [reflexivity|].
  apply plainElem_spec in He. destruct He as [H1 [H2 H3]].
  apply String.eqb_neq in H1, H2, H3.
  cbn. rewrite H1, H2, H3. cbn. rewrite IH, <- app_assoc. reflexivity.
Qed.

Lemma cleanElems_normal (r : bool) (es : list string) :
  Forall (fun e => slashFree e = true) es ->
  forall out, normal r out -> normal r (path.cleanElems r out es).
Proof.
  intros H. induction H as [|e es He _ IH]; intros out Hn; [exact Hn|].
  cbn. destruct (String.eqb_spec e "") as [->|H1]; [apply IH, Hn|].
  destruct (String.eqb_spec e ".") as [->|H2]; [apply IH, Hn|]. cbn.
  destruct (String.eqb_spec e "..") as [->|H3].
  - destruct out as [|top out'].
    + destruct r; apply IH; cbn; [exact I|]. repeat split; congruence.
    + destruct (String.eqb_spec top "..") as [->|Ht].
      * apply IH. assert (Hr : r = false) by (cbn in Hn; apply Hn; reflexivity).
        change (slashFree ".." = true /\ ".." <> "" /\ ".." <> "." /\
                (".." = ".." -> r = false /\ ".." = "..") /\ normal r (".." :: out')).
        split; [reflexivity|]. split; [discriminate|]. split; [discriminate|].
        split; [intros _; split; [exact Hr | reflexivity] | exact Hn].
      * apply IH. cbn in Hn. tauto.
  - apply IH. cbn. repeat split; try assumption; congruence.
Qed.

Lemma cleanElems_replay (r : bool) (out : list string) :
  normal r out -> path.cleanElems r [] (rev out) = out.
Proof.
  induction out as [|x out IH]; intros Hn; [reflexivity|].
  cbn in Hn. destruct Hn as [A [B [C [D N]]]].
  cbn [rev]. rewrite cleanElems_app, (IH N). cbn.
  apply String.eqb_neq in B, C. rewrite B, C. cbn.
  destruct (String.eqb_spec x "..") as [->|Hx]; [|reflexivity].
  destruct (D eq_refl) as [-> Hy]. destruct out as [|y out']; [reflexivity|].
  rewrite Hy. reflexivity.
Qed.

Lemma normal_In (r : bool) (out : list string) (e : string) :
  normal r out -> In e out -> slashFree e = true /\ e <> "" /\ e <> ".".
Proof.
  induction out as [|x out IH]; intros Hn Hin; [contradiction|].
  cbn in Hn. destruct Hn as [A [B [C [_ N]]]].
  destruct Hin as [<-|Hin]; [tauto | exact (IH N Hin)].
Qed.

Lemma normal_push_plain (r : bool) (segs out : list string) :
  Forall (fun e => plainElem e = true) segs ->
  Forall (fun e => slashFree e = true) segs ->
  normal r out -> normal r (rev segs ++ out).
Proof.
  intros Hp. revert out. induction Hp as [|e es He _ IH]; intros out Hs Hn; [exact Hn|].
  inversion Hs as [|? ? Hse Hses]; subst.
  cbn [rev]. rewrite <- app_assoc. apply IH; [exact Hses|].
  apply plainElem_spec in He. cbn. repeat split; try tauto; congruence.
Qed.

Lemma Join_not_empty (l : list string) :
  l <> [] -> (forall e, In e l -> e <> "") -> strings.Join l "/" <> "".
Proof.
  destruct l as [|a [|b l']]; intros Hl H; [congruence | |].
  - cbn. apply H. now left.
  - rewrite Join_cons by discriminate. destruct a; [|discriminate].
    exfalso. apply (H ""); [now left | reflexivity].
Qed.

Lemma normal_rev_nonempty (r : bool) (out : list string) :
  normal r out -> forall e, In e (rev out) -> e <> "".
Proof.
  intros Hn e Hin. apply in_rev in Hin. apply (normal_In r out e Hn Hin).
Qed.

Lemma rev_not_nil {A : Type} (l : list A) : l <> [] -> rev l <> [].
Proof. destruct l; [congruence|]. cbn. intros _ H. now apply app_eq_nil in H as [_ H]. Qed.

Lemma render_stack (r : bool) (out : list string) :
  out <> [] -> normal r out ->
  path.render r out = (if r then "/" else "") ++ strings.Join (rev out) "/".
Proof.
  intros Hne Hn. unfold path.render. destruct r; [reflexivity|].
  destruct (String.eqb_spec (strings.Join (rev out) "/") "") as [E|_]; [|reflexivity].
  exfalso. revert E. apply Join_not_empty; [now apply rev_not_nil|].
  now apply normal_rev_nonempty with (r := false).
Qed.

Lemma render_not_empty (r : bool) (out : list string) :
  out <> [] -> normal r out -> path.render r out <> "".
Proof.
  intros Hne Hn. rewrite render_stack by assumption. destruct r; [discriminate|].
  cbn. apply Join_not_empty; [now apply rev_not_nil|].
  now apply normal_rev_nonempty with (r := false).
Qed.

Lemma normal_rev_slashFree (r : bool) (out : list string) :
  normal r out -> Forall (fun e => slashFree e = true) (rev out).
Proof.
  intros Hn. apply Forall_forall. intros e Hin. apply in_rev in Hin.
  apply (normal_In r out e Hn Hin).
Qed.

Lemma SplitSlash_render (r : bool) (out : list string) :
  out <> [] -> normal r out ->
  strings.SplitSlash (path.render r out) = ((if r then [""] else []) ++ rev out)%list.
Proof.
  intros Hne Hn. rewrite render_stack by assumption.
  assert (H : strings.SplitSlash (strings.Join (rev out) "/") = rev out).
  { apply SplitSlash_Join; [now apply rev_not_nil | now apply normal_rev_slashFree with (r := r)]. }
  destruct r; cbn; now rewrite H.
Qed.

Lemma isRooted_slashFree (e rest : string) :
  e <> "" -> slashFree e = true -> path.isRooted (e ++ rest) = false.
Proof.
  destruct e as [|c e]; [congruence|]. intros _. cbn.
  destruct (Ascii.eqb c "/"); [discriminate | reflexivity].
Qed.

Lemma isRooted_render (r : bool) (out : list string) :
  out <> [] -> normal r out -> path.isRooted (path.render r out) = r.
Proof.
  intros Hne Hn. rewrite render_stack by assumption. destruct r; [reflexivity|].
  cbn. pose proof (rev_not_nil out Hne) as Hr.
  pose proof (normal_rev_nonempty false out Hn) as Hnz.
  pose proof (normal_rev_slashFree false out Hn) as Hsf.
  destruct (rev out) as [|y l]; [congruence|].
  inversion Hsf as [|? ? Hy _]; subst.
  assert (Hy0 : y <> "") by (apply Hnz; now left).
  destruct l as [|z l'].
  - cbn. rewrite <- (append_empty_r y). now apply isRooted_slashFree.
  - rewrite Join_cons by discriminate. now apply isRooted_slashFree.
Qed.

Lemma Clean_render (r : bool) (out : list string) :
  out <> [] -> normal r out -> path.Clean (path.render r out) = path.render r out.
Proof.
  intros Hne Hn. unfold path.Clean.
  destruct (String.eqb_spec (path.render r out) "") as [E|_];
    [now apply render_not_empty in E|].
  rewrite isRooted_render, SplitSlash_render by assumption.
  replace (path.cleanElems r [] ((if r then [""] else []) ++ rev out)) with out;
    [reflexivity|].
  symmetry. destruct r; cbn; now apply cleanElems_replay.
Qed.

Lemma render_inj (r : bool) (out1 out2 : list string) :
  out1 <> [] -> normal r out1 -> out2 <> [] -> normal r out2 ->
  path.render r out1 = path.render r out2 -> out1 = out2.
Proof.
  intros H1 N1 H2 N2 E. apply (f_equal strings.SplitSlash) in E.
  rewrite !SplitSlash_render in E by assumption.
  apply app_inv_head in E. rewrite <- (rev_involutive out1), <- (rev_involutive out2).
  now rewrite E.
Qed.

Lemma firstDiff_prefix (L segs : list string) :
  segs <> [] -> (L <> [] -> last L "" <> "") ->
  filepath.firstDiff L (L ++ segs) = ([], segs, false).
Proof.
  intros Hs. induction L as [|l L IH]; intros HL; [reflexivity|].
  cbn [app filepath.firstDiff].
  assert (E1 : filepath.isEmptyRest (l :: L) = false).
  { destruct L as [|l' L']; [|reflexivity]. cbn. apply String.eqb_neq. apply HL. discriminate. }
  assert (E2 : filepath.isEmptyRest (l :: (L ++ segs)%list) = false).
  { destruct (L ++ segs)%list eqn:E; [|reflexivity]. apply app_eq_nil in E. tauto. }
  rewrite E1, E2, String.eqb_refl. cbn. apply IH.
  intros HL'. destruct L as [|l' L']; [congruence|]. apply HL. discriminate.
Qed.

Lemma pluginStack_normal (P : string) : normal (path.isRooted P) (pluginStack P).
Proof.
  unfold pluginStack. apply cleanElems_normal; [|exact I].
  destruct (P =? ""); [constructor | apply SplitSlash_elems_slashFree].
Qed.

Lemma normal_mounts (r : bool) (out : list string) :
  normal r out -> normal r ("mounts" :: out).
Proof. intros Hn. cbn. repeat split; try discriminate. exact Hn. Qed.

Lemma isRooted_app (P rest : string) :
  P <> "" -> path.isRooted (P ++ rest) = path.isRooted P.
Proof. destruct P; [congruence | reflexivity]. Qed.

Lemma Join_base (P : string) :
  path.Join [P; "mounts"] = path.render (path.isRooted P) ("mounts" :: pluginStack P).
Proof.
  unfold pluginStack. destruct (String.eqb_spec P "") as [->|HP]; [reflexivity|].
  cbn [path.Join]. apply String.eqb_neq in HP. rewrite HP. apply String.eqb_neq in HP.
  rewrite Join_cons by discriminate. cbn [strings.Join]. unfold path.Clean.
  destruct (String.eqb_spec (P ++ String "/" "mounts") "") as [E|_];
    [destruct P; [congruence | discriminate E]|].
  rewrite isRooted_app by assumption. rewrite SplitSlash_app_slash, cleanElems_app.
  reflexivity.
Qed.

Lemma cleanName_spec (J : string) :
  cleanName J = true ->
  Forall (fun e => plainElem e = true) (strings.SplitSlash J).
Proof. unfold cleanName. intros H. apply Forall_forall. now apply forallb_forall. Qed.

Lemma Join_targ (P J : string) :
  cleanName J = true ->
  path.Join [P; "mounts"; J] =
  path.render (path.isRooted P) (rev (strings.SplitSlash J) ++ "mounts" :: pluginStack P).
Proof.
  intros HJ. apply cleanName_spec in HJ.
  assert (Hm : strings.SplitSlash (String "m" (String "o" (String "u" (String "n"
                 (String "t" (String "s" (String "/" J)))))))
               = "mounts" :: strings.SplitSlash J).
  { cbn. destruct (strings.SplitSlash J) eqn:E; reflexivity. }
  assert (Hp : Forall (fun e => plainElem e = true) ("mounts" :: strings.SplitSlash J))
    by (constructor; [reflexivity | exact HJ]).
  unfold pluginStack. destruct (String.eqb_spec P "") as [->|HP].
  - cbn [path.Join String.eqb Ascii.eqb Bool.eqb]. cbn [strings.Join].
    unfold path.Clean. cbn [String.append String.eqb path.isRooted Ascii.eqb Bool.eqb].
    rewrite Hm. rewrite (cleanElems_plain _ _ _ Hp). cbn [rev]. rewrite <- app_assoc.
    reflexivity.
  - cbn [path.Join]. apply String.eqb_neq in HP. rewrite HP. apply String.eqb_neq in HP.
    rewrite Join_cons by discriminate. rewrite Join_cons by discriminate. cbn [strings.Join].
    unfold path.Clean.
    destruct (String.eqb_spec (P ++ String "/" ("mounts" ++ String "/" J)) "") as [E|_];
      [destruct P; [congruence | discriminate E]|].
    rewrite isRooted_app by assumption. rewrite SplitSlash_app_slash, cleanElems_app.
    cbn [String.append]. rewrite Hm. rewrite (cleanElems_plain _ _ _ Hp).
    cbn [rev]. rewrite <- app_assoc. reflexivity.
Qed.

Lemma last_app_single {A : Type} (l : list A) (x d : A) : last (l ++ [x]) d = x.
Proof.
  induction l as [|a l IH]; [reflexivity|].
  cbn [app]. destruct (l ++ [x])%list eqn:E; [now apply app_eq_nil in E as [_ E]|].
  cbn [last]. exact IH.
Qed.

Lemma Rel_under (r : bool) (S0 segs : list string) :
  normal r S0 -> segs <> [] ->
  Forall (fun e => plainElem e = true) segs ->
  Forall (fun e => slashFree e = true) segs ->
  filepath.Rel (path.render r ("mounts" :: S0)) (path.render r (rev segs ++ "mounts" :: S0))
  = (strings.Join segs "/", None).
Proof.
  intros HS Hne Hp Hs.
  pose proof (normal_mounts r S0 HS) as HB.
  pose proof (normal_push_plain r segs _ Hp Hs HB) as HT.
  assert (HBne : "mounts" :: S0 <> []) by discriminate.
  assert (HTne : (rev segs ++ "mounts" :: S0)%list <> []).
  { intros E. apply app_eq_nil in E as [_ E]. discriminate E. }
  unfold filepath.Rel. rewrite !Clean_render by assumption.
  destruct (String.eqb_spec (path.render r (rev segs ++ "mounts" :: S0))
              (path.render r ("mounts" :: S0))) as [E|_].
  { exfalso. apply render_inj in E; try assumption.
    apply (f_equal (@List.length string)) in E. rewrite length_app, length_rev in E.
    destruct segs; [congruence | cbn in E; lia]. }
  destruct (String.eqb_spec (path.render r ("mounts" :: S0)) ".") as [E|_].
  { exfalso. apply (f_equal strings.SplitSlash) in E.
    rewrite SplitSlash_render in E by assumption. cbn [rev] in E.
    destruct r; cbn in E; [discriminate E|].
    destruct (rev S0) as [|a [|b l]]; cbn in E; discriminate E. }
  rewrite !isRooted_render by assumption.
  rewrite Bool.eqb_reflx. cbn [negb].
  unfold filepath.restElems.
  destruct (String.eqb_spec (path.render r ("mounts" :: S0)) "") as [E|_];
    [now apply render_not_empty in E|].
  destruct (String.eqb_spec (path.render r (rev segs ++ "mounts" :: S0)) "") as [E|_];
    [now apply render_not_empty in E|].
  rewrite !SplitSlash_render by assumption.
  rewrite rev_app_distr, rev_involutive, app_assoc.
  rewrite firstDiff_prefix; [|exact Hne|].
  - cbn [andb filepath.isEmptyRest negb].
    unfold filepath.restString.
    assert (Ee : filepath.isEmptyRest segs = false).
    { destruct segs as [|a [|b l]]; [congruence | | reflexivity].
      inversion Hp as [|? ? Ha _]; subst. apply plainElem_spec in Ha.
      cbn. apply String.eqb_neq. tauto. }
    rewrite Ee. reflexivity.
  - intros _. cbn [rev]. rewrite app_assoc. rewrite last_app_single. discriminate.
Qed.

Lemma replaceFrom_no_match (old new : string) (n : Z) (s : string) :
  old <> "" -> strings.Contains s old = false ->
  strings.replaceFrom old new n 0 s = s.
Proof.
  intros Ho. induction s as [|c s IH]; intros H.
  - cbn. destruct old; [congruence | reflexivity].
  - cbn [strings.Contains] in H. apply orb_false_iff in H as [H1 H2].
    cbn [strings.replaceFrom]. destruct (n =? 0)%Z; [reflexivity|].
    rewrite H1, (IH H2). reflexivity.
Qed.

Lemma Contains_double_slash (s : string) :
  Forall (fun e => e <> "") (tl (strings.SplitSlash s)) ->
  strings.Contains s "//" = false.
Proof.
  induction s as [|c s IH]; [reflexivity|].
  cbn [strings.SplitSlash]. destruct (Ascii.eqb_spec c "/") as [->|Hc].
  - cbn [tl]. intros H. cbn [strings.Contains]. apply orb_false_iff. split.
    + cbn. destruct s as [|d s']; [reflexivity|].
      destruct (Ascii.eqb_spec d "/") as [->|Hd]; [|reflexivity].
      cbn in H. inversion H; congruence.
    + apply IH. destruct (strings.SplitSlash s); [constructor|]. now inversion H.
  - intros H. cbn [strings.Contains]. apply orb_false_iff. split.
    + cbn. apply Ascii.eqb_neq in Hc. now rewrite Hc.
    + apply IH. destruct (strings.SplitSlash s) as [|e es]; [constructor | exact H].
Qed.

Lemma Contains_scheme_double_slash (s : string) :
  strings.Contains s "://" = true -> strings.Contains s "//" = true.
Proof.
  induction s as [|c s IH]; [discriminate|].
  cbn [strings.Contains]. intros H. apply orb_true_iff in H as [H|H].
  - apply orb_true_iff. right. cbn in H. apply andb_true_iff in H as [_ H].
    destruct s as [|d s']; [discriminate H|].
    cbn [strings.Contains]. apply orb_true_iff. left. exact H.
  - apply orb_true_iff. right. now apply IH.
Qed.

Lemma cleanName_no_scheme (J : string) :
  cleanName J = true -> strings.Contains J "://" = false.
Proof.
  intros HJ. apply cleanName_spec in HJ.
  destruct (strings.Contains J "://") eqn:E; [|reflexivity].
  apply Contains_scheme_double_slash in E.
  rewrite Contains_double_slash in E; [discriminate E|].
  destruct (strings.SplitSlash J) as [|e es]; [constructor|].
  inversion HJ as [|? ? _ Hes]; subst. cbn [tl].
  apply Forall_impl with (2 := Hes). intros a Ha. apply plainElem_spec in Ha. tauto.
Qed.

Lemma Replace_scheme_id (J : string) :
  cleanName J = true -> strings.Replace J "://" "/" (-1) = J.
Proof.
  intros HJ. unfold strings.Replace. apply replaceFrom_no_match; [discriminate|].
  now apply cleanName_no_scheme.
Qed.

Lemma Replace_aws_forward (J : string) :
  cleanName J = true ->
  strings.Replace ("aws://" ++ J) "://" "/" (-1) = "aws/" ++ J.
Proof.
  intros HJ. unfold strings.Replace. cbn.
  rewrite replaceFrom_no_match; [reflexivity | discriminate | now apply cleanName_no_scheme].
Qed.

Lemma Replace_aws_backward (J : string) :
  strings.Replace ("aws/" ++ J) "aws/" "aws://" 1 = "aws://" ++ J.
Proof. unfold strings.Replace. cbn. destruct J; reflexivity. Qed.

(** With no further [aws/] in the name, the count given to
    [strings.Replace] in the reverse mapping makes no difference, as long
    as it allows one replacement. *)
Lemma Replace_aws_backward_any_count (J : string) (n : Z) :
  n <> 0%Z -> strings.Contains J "aws/" = false ->
  strings.Replace ("aws/" ++ J) "aws/" "aws://" n = "aws://" ++ J.
Proof.
  intros Hn HJ. unfold strings.Replace. cbn.
  apply Z.eqb_neq in Hn. rewrite Hn.
  rewrite replaceFrom_no_match; [reflexivity | discriminate | exact HJ].
Qed.

Lemma cleanName_aws (J : string) :
  cleanName J = true -> cleanName ("aws/" ++ J) = true.
Proof.
  unfold cleanName. intros HJ. cbn.
  destruct (strings.SplitSlash J) eqn:E; cbn; [reflexivity | exact HJ].
Qed.

Lemma mapped_round_trip (h : VolumeHost) (J : string) :
  cleanName J = true ->
  filepath.Rel (path.Join [GetPluginDir h awsPersistentDiskPluginName; "mounts"])
               (path.Join [GetPluginDir h awsPersistentDiskPluginName; "mounts"; J])
  = (J, None).
Proof.
  intros HJ. rewrite Join_base, (Join_targ _ _ HJ).
  rewrite Rel_under.
  - now rewrite Join_SplitSlash.
  - apply pluginStack_normal.
  - apply SplitSlash_nonempty.
  - now apply cleanName_spec.
  - apply SplitSlash_elems_slashFree.
Qed.

(** C2, amended: the reverse mapping applied to the forward mapping
    gives back the identifier, for every plugin directory the host may
    give and every count the call of [strings.Replace] in the reverse
    mapping may be read with, in two cases.  The identifier is a clean
    name (slash-separated elements, none empty, [.] or [..]) without the
    text [../] that does not start with [aws/]; or it is [aws://name] for
    such a clean name in which [aws/] does not occur at all, and the
    count allows a replacement. *)
Theorem path_round_trip :
  forall (count : Z) (h : VolumeHost) (name : string),
    cleanName name = true ->
    strings.Contains name "../" = false ->
    (strings.HasPrefix name "aws/" = false ->
     getPdNameFromGlobalMountN count h (makeGlobalPDName h name) = (name, None)) /\
    (count <> 0%Z -> strings.Contains name "aws/" = false ->
     getPdNameFromGlobalMountN count h (makeGlobalPDName h ("aws://" ++ name))
     = ("aws://" ++ name, None)).
Proof.
  intros count h name Hc Hd. split.
  - intros Hp. unfold getPdNameFromGlobalMountN, makeGlobalPDName.
    rewrite (Replace_scheme_id _ Hc), (mapped_round_trip _ _ Hc), Hd, Hp. reflexivity.
  - intros Hn Ha. unfold getPdNameFromGlobalMountN, makeGlobalPDName.
    rewrite (Replace_aws_forward _ Hc), (mapped_round_trip _ _ (cleanName_aws _ Hc)).
    assert (Hd' : strings.Contains ("aws/" ++ name) "../" = false) by (cbn; exact Hd).
    rewrite Hd'.
    assert (Hp' : strings.HasPrefix ("aws/" ++ name) "aws/" = true) by reflexivity.
    rewrite Hp', (Replace_aws_backward_any_count _ _ Hn Ha). reflexivity.
Qed.

Lemma path_round_trip_witness :
  cleanName "us-east-1a/vol-0123456789abcdef0" = true /\
  strings.Contains "us-east-1a/vol-0123456789abcdef0" "../" = false /\
  strings.Contains "us-east-1a/vol-0123456789abcdef0" "aws/" = false /\
  getPdNameFromGlobalMountN (-1) kubeletHost
    (makeGlobalPDName kubeletHost "aws://us-east-1a/vol-0123456789abcdef0")
  = ("aws://us-east-1a/vol-0123456789abcdef0", None).
Proof.
  split; [reflexivity|]. split; [reflexivity|]. split; [reflexivity|].
  exact (proj2 (path_round_trip (-1) kubeletHost "us-east-1a/vol-0123456789abcdef0"
                  eq_refl eq_refl) ltac:(discriminate) eq_refl).
Defined.

(** Why [aws/] must not occur again in the name: with a second [aws/]
    the identifier comes back for count 1 and does not for a count that
    replaces every occurrence. *)
Example round_trip_second_aws_count_1 :
  getPdNameFromGlobalMountN 1 kubeletHost
    (makeGlobalPDName kubeletHost "aws://zone/aws/vol-1")
  = ("aws://zone/aws/vol-1", None).
Proof. reflexivity. Qed.

Example round_trip_second_aws_count_all :
  getPdNameFromGlobalMountN (-1) kubeletHost
    (makeGlobalPDName kubeletHost "aws://zone/aws/vol-1")
  = ("aws://zone/aws://vol-1", None).
Proof. reflexivity. Qed.

(** An identifier of another scheme has no parent-traversal segment
    after the substitution, and does not come back: the reverse mapping
    puts [://] back only behind a leading [aws]. *)
Lemma round_trip_fails_other_scheme :
  strings.Replace "ebs://vol-1" "://" "/" (-1) = "ebs/vol-1" /\
  strings.Contains "ebs/vol-1" ".." = false /\
  makeGlobalPDName kubeletHost "ebs://vol-1"
  = "/var/lib/kubelet/plugins/kubernetes.io/aws-pd/mounts/ebs/vol-1" /\
  getPdNameFromGlobalMount kubeletHost (makeGlobalPDName kubeletHost "ebs://vol-1")
  = ("ebs/vol-1", None) /\
  "ebs/vol-1" <> "ebs://vol-1".
Proof. repeat split. discriminate. Qed.

(** Other identifiers that do not come back: one that starts with
    [aws/], one with a doubled slash, and the empty one. *)
Example round_trip_fails_aws_slash :
  getPdNameFromGlobalMount kubeletHost (makeGlobalPDName kubeletHost "aws/vol-1")
  = ("aws://vol-1", None).
Proof. reflexivity. Qed.

Example round_trip_fails_double_slash :
  getPdNameFromGlobalMount kubeletHost (makeGlobalPDName kubeletHost "zone//vol-1")
  = ("zone/vol-1", None).
Proof. reflexivity. Qed.

Example round_trip_fails_empty :
  getPdNameFromGlobalMount kubeletHost (makeGlobalPDName kubeletHost "") = (".", None).
Proof. reflexivity. Qed.

(** ** The path mapper: paths outside the mount root *)

(** What the two checks of the reverse mapping do reject: a path that
    [filepath.Rel] cannot relate to the mount root, and one whose relative
    path contains the text [../].  No name is returned then. *)
Lemma getPdNameFromGlobalMount_rejects :
  forall (h : VolumeHost) (globalPath : string),
    let basePath := path.Join [GetPluginDir h awsPersistentDiskPluginName; "mounts"] in
    snd (filepath.Rel basePath globalPath) <> None \/
    strings.Contains (fst (filepath.Rel basePath globalPath)) "../" = true ->
    exists err : error, getPdNameFromGlobalMount h globalPath = ("", Some err).
Proof.
  intros h globalPath basePath H. unfold getPdNameFromGlobalMount, getPdNameFromGlobalMountN. fold basePath.
  destruct (filepath.Rel basePath globalPath) as [rel [e|]]; cbn [fst snd] in H.
  - now exists e.
  - destruct H as [H|H]; [congruence|]. rewrite H. eexists. reflexivity.
Qed.

Lemma getPdNameFromGlobalMount_rejects_witness :
  filepath.Rel (path.Join [GetPluginDir kubeletHost awsPersistentDiskPluginName; "mounts"])
               "/var/lib/kubelet/plugins/other"
  = ("../../../other", None) /\
  exists err : error,
    getPdNameFromGlobalMount kubeletHost "/var/lib/kubelet/plugins/other" = ("", Some err).
Proof.
  split; [reflexivity|].
  apply (getPdNameFromGlobalMount_rejects kubeletHost "/var/lib/kubelet/plugins/other").
  right. reflexivity.
Defined.

(** C3, the code at the failing input: the plugin directory itself, the
    parent of the mount root.  Its relative path is [..], which leaves
    the root; the text [../] does not occur in it, so the check lets it
    pass and [..] is returned as the disk identifier, with no error. *)
Theorem getPdNameFromGlobalMount_parent_accepted :
  let basePath := path.Join [GetPluginDir kubeletHost awsPersistentDiskPluginName; "mounts"] in
  let globalPath := "/var/lib/kubelet/plugins/kubernetes.io/aws-pd" in
  basePath = "/var/lib/kubelet/plugins/kubernetes.io/aws-pd/mounts" /\
  filepath.Rel basePath globalPath = ("..", None) /\
  strings.Contains ".." "../" = false /\
  getPdNameFromGlobalMount kubeletHost globalPath = ("..", None).
Proof. repeat split. Qed.

(** ** The path mapper: a recovered name is never empty *)

Lemma Clean_is_render (g : string) :
  exists out : list string,
    normal (path.isRooted g) out /\ path.Clean g = path.render (path.isRooted g) out.
Proof.
  unfold path.Clean. destruct (String.eqb_spec g "") as [->|Hg].
  - exists []. split; [exact I | reflexivity].
  - eexists. split; [|reflexivity].
    apply cleanElems_normal; [apply SplitSlash_elems_slashFree | exact I].
Qed.

Lemma isRooted_render_any (r : bool) (out : list string) :
  normal r out -> path.isRooted (path.render r out) = r.
Proof.
  destruct out as [|x out]; [destruct r; reflexivity|].
  apply isRooted_render. discriminate.
Qed.

Lemma render_any_not_empty (r : bool) (out : list string) :
  normal r out -> path.render r out <> "".
Proof.
  destruct out as [|x out]; [destruct r; discriminate|].
  apply render_not_empty. discriminate.
Qed.

Lemma dotdots_not_empty (n : nat) (rest : string) : filepath.dotdots n ++ rest <> "".
Proof.
  assert (H : exists t, filepath.dotdots n = String "." t).
  { induction n as [|n [t IH]]; [now exists "."|]. cbn. rewrite IH. now eexists. }
  destruct H as [t ->]. discriminate.
Qed.

Lemma Join_eq_empty (l : list string) :
  strings.Join l "/" = "" -> filepath.isEmptyRest l = true.
Proof.
  destruct l as [|a [|b l']]; [reflexivity | |].
  - cbn. intros ->. reflexivity.
  - rewrite Join_cons by discriminate. destruct a; discriminate.
Qed.

Lemma isEmptyRest_nil (l : list string) :
  Forall (fun e => e <> "") l -> filepath.isEmptyRest l = true -> l = [].
Proof.
  destruct l as [|a [|b l']]; [reflexivity | | discriminate].
  intros H E. inversion H as [|? ? Ha _]; subst. cbn in E.
  apply String.eqb_eq in E. congruence.
Qed.

Lemma firstDiff_both_empty (X Y b t : list string) (k : bool) :
  Forall (fun e => e <> "") X -> Forall (fun e => e <> "") Y ->
  filepath.firstDiff X Y = (b, t, k) ->
  filepath.isEmptyRest b = true -> filepath.isEmptyRest t = true ->
  X = Y.
Proof.
  intros HX. revert Y. induction HX as [|x X Hx HX IH]; intros Y HY F Eb Et.
  - cbn in F. injection F as <- <- <-. symmetry. now apply isEmptyRest_nil.
  - destruct Y as [|y Y].
    + cbn in F. injection F as <- <- <-.
      apply isEmptyRest_nil in Eb; [discriminate Eb | now constructor].
    + inversion HY as [|? ? Hy HY']; subst.
      cbn [filepath.firstDiff] in F.
      assert (E1 : filepath.isEmptyRest (x :: X) = false).
      { destruct X; [|reflexivity]. cbn. now apply String.eqb_neq. }
      assert (E2 : filepath.isEmptyRest (y :: Y) = false).
      { destruct Y; [|reflexivity]. cbn. now apply String.eqb_neq. }
      rewrite E1, E2 in F. cbn [orb] in F.
      destruct (String.eqb_spec y x) as [->|Hne].
      * f_equal. now apply (IH Y HY' F).
      * injection F as <- <- <-. congruence.
Qed.

Lemma normal_rev_elems (r : bool) (out : list string) :
  normal r out -> Forall (fun e => e <> "") (rev out).
Proof.
  intros Hn. apply Forall_forall. intros e He. now apply (normal_rev_nonempty r out Hn).
Qed.

Lemma SplitSlash_inj (s t : string) :
  strings.SplitSlash s = strings.SplitSlash t -> s = t.
Proof.
  intros E. rewrite <- (Join_SplitSlash s), <- (Join_SplitSlash t). now rewrite E.
Qed.

(** The rest of the target is not empty when the rest of the base is:
    otherwise the two cleaned paths would be the same. *)
Lemma firstDiff_target_left (r : bool) (B T b t : list string) (k : bool) :
  B <> [] -> normal r B -> normal r T ->
  path.render r T <> path.render r B ->
  filepath.firstDiff (strings.SplitSlash (path.render r B))
                     (strings.SplitSlash (path.render r T)) = (b, t, k) ->
  filepath.isEmptyRest b = true ->
  filepath.isEmptyRest t = false.
Proof.
  intros HB NB NT Hneq F Eb.
  destruct (filepath.isEmptyRest t) eqn:Et; [exfalso|reflexivity].
  apply Hneq. apply SplitSlash_inj.
  rewrite (SplitSlash_render r B HB NB) in F |- *.
  pose proof (normal_rev_elems r B NB) as EB.
  pose proof (rev_not_nil B HB) as RB.
  destruct T as [|x T].
  - (* the target is the root, or the current directory *)
    destruct r; cbn in F |- *.
    + destruct (rev B) as [|y Y]; [congruence|]. cbn in F.
      rewrite orb_true_r in F. injection F as <- <- <-.
      apply isEmptyRest_nil in Eb; [discriminate Eb | exact EB].
    + symmetry. apply (firstDiff_both_empty _ _ _ _ _ EB) with (3 := Eb) (4 := Et) (2 := F).
      repeat constructor. discriminate.
  - assert (HT : x :: T <> []) by discriminate.
    rewrite (SplitSlash_render r (x :: T) HT NT) in F |- *.
    pose proof (normal_rev_elems r (x :: T) NT) as ET.
    pose proof (rev_not_nil (x :: T) HT) as RT.
    destruct r; cbn [app] in F |- *.
    + cbn [filepath.firstDiff] in F.
      assert (E1 : filepath.isEmptyRest ("" :: rev B) = false)
        by (destruct (rev B); [congruence | reflexivity]).
      assert (E2 : filepath.isEmptyRest ("" :: rev (x :: T)) = false)
        by (destruct (rev (x :: T)); [congruence | reflexivity]).
      rewrite E1, E2 in F. cbn [orb String.eqb] in F.
      f_equal. symmetry. exact (firstDiff_both_empty _ _ _ _ _ EB ET F Eb Et).
    + symmetry. exact (firstDiff_both_empty _ _ _ _ _ EB ET F Eb Et).
Qed.

Lemma Rel_result_not_empty (r : bool) (B : list string) (g rel : string) :
  B <> [] -> normal r B ->
  filepath.Rel (path.render r B) g = (rel, None) -> rel <> "".
Proof.
  intros HB NB. unfold filepath.Rel. rewrite (Clean_render r B HB NB).
  destruct (Clean_is_render g) as [T [NT ->]].
  set (rt := path.isRooted g) in *.
  destruct (String.eqb_spec (path.render rt T) (path.render r B)) as [E|Hneq];
    [intros H; injection H as <-; discriminate|].
  destruct (String.eqb_spec (path.render r B) ".") as [E|_].
  { exfalso. apply (f_equal strings.SplitSlash) in E.
    rewrite SplitSlash_render in E by assumption.
    pose proof (normal_rev_nonempty r B NB) as Hnz.
    assert (Hin : In "." B).
    { apply in_rev. destruct r; cbn in E; [|rewrite E; now left].
      destruct (rev B); discriminate E. }
    now destruct (normal_In r B "." NB Hin) as [_ [_ H]]. }
  rewrite (isRooted_render r B HB NB), (isRooted_render_any rt T NT).
  destruct (Bool.eqb r rt) eqn:Er; cbn [negb]; [|discriminate].
  apply Bool.eqb_prop in Er. subst rt. rewrite <- Er in *. clear Er.
  unfold filepath.restElems.
  destruct (String.eqb_spec (path.render r B) "") as [E|_];
    [now apply render_not_empty in E|].
  destruct (String.eqb_spec (path.render r T) "") as [E|_];
    [now apply render_any_not_empty in E|].
  destruct (filepath.firstDiff _ _) as [[b t] k] eqn:F.
  destruct (k && (hd "" b =? "..")); [discriminate|].
  destruct (filepath.isEmptyRest b) eqn:Eb; cbn [negb].
  - pose proof (firstDiff_target_left r B T b t k HB NB NT Hneq F Eb) as Et.
    intros H. injection H as <-. unfold filepath.restString. rewrite Et.
    intros E. apply Join_eq_empty in E. congruence.
  - intros H. injection H as <-. apply dotdots_not_empty.
Qed.

Lemma HasPrefix_split (s p : string) :
  strings.HasPrefix s p = true -> exists t, s = p ++ t.
Proof.
  revert s. induction p as [|c p IH]; intros s H; [now exists s|].
  destruct s as [|d s]; [discriminate H|]. cbn in H.
  apply andb_true_iff in H as [Hc Hp]. apply Ascii.eqb_eq in Hc. subst d.
  destruct (IH s Hp) as [t ->]. now exists t.
Qed.

Lemma getPdNameFromGlobalMount_not_empty (h : VolumeHost) (globalPath name : string) :
  getPdNameFromGlobalMount h globalPath = (name, None) -> name <> "".
Proof.
  unfold getPdNameFromGlobalMount, getPdNameFromGlobalMountN. rewrite Join_base.
  destruct (filepath.Rel _ globalPath) as [rel [e|]] eqn:R; [discriminate|].
  apply Rel_result_not_empty in R;
    [| discriminate | apply normal_mounts, pluginStack_normal].
  destruct (strings.Contains rel "../"); [discriminate|].
  destruct (strings.HasPrefix rel "aws/") eqn:Hp.
  - apply HasPrefix_split in Hp as [t ->]. rewrite Replace_aws_backward.
    intros H. injection H as <-. discriminate.
  - intros H. injection H as <-. exact R.
Qed.

(** ** Case analysis on the answers of the environment *)

Arguments makeGlobalPDName : simpl never.
#[local] Arguments N.lor : simpl never.
Arguments getPdNameFromGlobalMount : simpl never.

Ltac split_answer r :=
  lazymatch type of r with
  | (_ * _)%type =>
      let a := fresh "a" in
      let b := fresh "b" in
      destruct r as [a b]; split_answer a; split_answer b
  | option _ => destruct r
  | bool => destruct r
  | list _ => destruct r as [|? [|? ?]]
  | _ => idtac
  end.

Ltac ask e :=
  match goal with
  | |- context [e ?A ?tr ?c] =>
      let E := fresh "E" in
      let r := fresh "r" in
      remember (e A tr c) as r eqn:E; symmetry in E; split_answer r; cbn [fst snd]
  end.

Ltac decide_pure :=
  match goal with
  | |- context [os.IsNotExist ?x] => destruct (os.IsNotExist x) eqn:?
  | |- context [getPdNameFromGlobalMount ?h ?r] =>
      let n := fresh "name" in
      let E := fresh "E" in
      destruct (getPdNameFromGlobalMount h r) as [n [?|]] eqn:E
  end.

Ltac explore e := cbn; repeat (first [ask e | decide_pure]; cbn).

(** What a hypothesis [In ev tr] on a list of calls that is known leaves. *)
Ltac in_cases H :=
  repeat match type of H with
         | _ \/ _ => destruct H as [H | H]; try discriminate H
         end;
  try contradiction.

(** ** Tear-down: the first mount-status query *)

(** C10: when the first mount-status query of TearDownAt fails, whatever
    the failure (a missing path included), the call returns that error at
    once: the query is the only call made, so nothing is removed, nothing
    is unmounted and the disk manager is not touched. *)
Theorem TearDownAt_query_failure_returns :
  forall (e : env) (pd : awsPersistentDisk) (dir : string) (b : bool) (err : error),
    e _ [] (IsMountPoint dir) = (b, Some err) ->
    let o := exec (TearDownAt pd dir) e in
    result o = (Some err, pd) /\
    calls o = [EvIsMountPoint dir b (Some err)] /\
    existsb isRemove (calls o) = false /\
    existsb isUnmount (calls o) = false /\
    existsb isDiskManager (calls o) = false.
Proof.
  intros e pd dir b err H. unfold exec, TearDownAt. cbn. rewrite H. cbn.
  repeat split.
Qed.

Lemma TearDownAt_query_failure_returns_witness :
  let o := exec (TearDownAt cleanerPD podDir) (script [RFail ENOENT]) in
  os.IsNotExist ENOENT = true /\
  result o = (Some ENOENT, cleanerPD) /\
  calls o = [EvIsMountPoint podDir false (Some ENOENT)].
Proof.
  split; [reflexivity|].
  destruct (TearDownAt_query_failure_returns (script [RFail ENOENT]) cleanerPD podDir
              false ENOENT eq_refl) as [H1 [H2 _]].
  split; [exact H1 | exact H2].
Defined.

(** ** Set-up: the first mount-status query *)

(** C4: when the first mount-status query of SetUpAt reports a mount
    point, the call returns success at once, the query being the only
    call made: no attach, no mount.  When that query fails only because
    the path does not exist, the call does not return there: it goes on
    to attach the disk at the global path, and an error it returns in the
    end is the error of the attach, of the directory creation or of the
    bind mount. *)
Theorem SetUpAt_first_query :
  forall (e : env) (pd : awsPersistentDisk) (dir : string),
    let o := exec (SetUpAt pd dir) e in
    (e _ [] (IsMountPoint dir) = (true, None) ->
       result o = None /\
       calls o = [EvIsMountPoint dir true None] /\
       existsb isAttachAndMountDisk (calls o) = false /\
       existsb isMount (calls o) = false) /\
    (forall err : error,
       e _ [] (IsMountPoint dir) = (false, Some err) ->
       os.IsNotExist err = true ->
       exists (aerr : option error) (rest : list event),
         calls o = EvIsMountPoint dir false (Some err)
                   :: EvAttachAndMountDisk pd
                        (makeGlobalPDName (host (plugin pd)) (pdName pd)) aerr
                   :: rest /\
         (result o = None \/
          exists ev, In ev (tl (calls o)) /\
                     (isAttachAndMountDisk ev || isMkdirAll ev || isMount ev) = true /\
                     errorOf ev = result o)).
Proof.
  intros e pd dir o. subst o. split.
  - intros H. unfold exec, SetUpAt. cbn. rewrite H. cbn. repeat split.
  - intros err H Hne. unfold exec, SetUpAt. cbn. rewrite H. cbn. rewrite Hne. cbn.
    unfold detachDiskLogError.
    explore e;
      eexists; eexists; (split; [reflexivity|]);
      first [ solve [left; reflexivity]
            | solve [right; eexists; split; [left; reflexivity | split; reflexivity]]
            | solve [right; eexists; split;
                     [right; left; reflexivity | split; reflexivity]]
            | solve [right; eexists; split;
                     [right; right; left; reflexivity | split; reflexivity]] ].
Qed.

Lemma SetUpAt_first_query_witness :
  (let o := exec (SetUpAt builderPD podDir) (script [RBool true]) in
   result o = None /\ calls o = [EvIsMountPoint podDir true None]) /\
  (let o := exec (SetUpAt builderPD podDir) (script [RFail ENOENT]) in
   exists aerr rest,
     calls o = EvIsMountPoint podDir false (Some ENOENT)
               :: EvAttachAndMountDisk builderPD globalDir aerr :: rest).
Proof.
  split.
  - destruct (SetUpAt_first_query (script [RBool true]) builderPD podDir) as [H _].
    destruct (H eq_refl) as [H1 [H2 _]]. split; [exact H1 | exact H2].
  - destruct (SetUpAt_first_query (script [RFail ENOENT]) builderPD podDir) as [_ H].
    destruct (H ENOENT eq_refl eq_refl) as [aerr [rest [H1 _]]].
    exists aerr, rest. exact H1.
Defined.

(** ** Tear-down of a stale directory *)

(** A directory that is there, is no mount point and is not empty: the
    removal fails, the call returns that failure and the directory
    stays. *)
Lemma TearDownAt_stale_dir_removal_fails :
  let o := exec (TearDownAt cleanerPD podDir) (script [RBool false; RFail ENOTEMPTY]) in
  calls o = [EvIsMountPoint podDir false None; EvRemove podDir (Some ENOTEMPTY)] /\
  result o = (Some ENOTEMPTY, cleanerPD) /\
  dirExists podDir true (calls o) = true.
Proof. repeat split. Qed.

(** C6, amended: when the first mount-status query of TearDownAt reports
    that dir is no mount point, the call makes one more call, the removal
    of dir, and returns what the removal returns: success, with the
    directory gone, when the removal succeeds.  The disk manager is not
    called and nothing is unmounted. *)
Theorem TearDownAt_not_mounted_removes :
  forall (e : env) (pd : awsPersistentDisk) (dir : string),
    e _ [] (IsMountPoint dir) = (false, None) ->
    let o := exec (TearDownAt pd dir) e in
    exists rerr : option error,
      calls o = [EvIsMountPoint dir false None; EvRemove dir rerr] /\
      result o = (rerr, pd) /\
      existsb isDiskManager (calls o) = false /\
      existsb isUnmount (calls o) = false /\
      (rerr = None -> forall before, dirExists dir before (calls o) = false).
Proof.
  intros e pd dir H. unfold exec, TearDownAt. cbn. rewrite H. cbn.
  eexists. repeat split.
  intros Hr before. rewrite Hr. cbn. rewrite String.eqb_refl. reflexivity.
Qed.

Lemma TearDownAt_not_mounted_removes_witness :
  let o := exec (TearDownAt cleanerPD podDir) (script [RBool false]) in
  exists rerr : option error,
    calls o = [EvIsMountPoint podDir false None; EvRemove podDir rerr] /\
    result o = (rerr, cleanerPD).
Proof.
  destruct (TearDownAt_not_mounted_removes (script [RBool false]) cleanerPD podDir eq_refl)
    as [rerr [H1 [H2 _]]].
  exists rerr. split; [exact H1 | exact H2].
Defined.

(** ** Set-up: the directory cannot be created *)

(** C7: when SetUpAt has attached the disk and the creation of the
    target directory fails, the call returns the error of the creation.
    Before returning it calls DetachDisk once, as its last call; whatever
    DetachDisk returns, the returned error is the same, and a failure of
    DetachDisk is written to the log as a warning. *)
Theorem SetUpAt_mkdir_failure :
  forall (e : env) (pd : awsPersistentDisk) (dir : string) (merr : error),
    let o := exec (SetUpAt pd dir) e in
    In (EvMkdirAll dir 488 (Some merr)) (calls o) ->
    result o = Some merr /\
    exists (q : option error) (derr : option error),
      calls o = [EvIsMountPoint dir false q;
                 EvAttachAndMountDisk pd
                   (makeGlobalPDName (host (plugin pd)) (pdName pd)) None;
                 EvMkdirAll dir 488 (Some merr);
                 EvDetachDisk pd derr] /\
      (derr <> None ->
       In (Warningf "Failed to detach disk: %v (%v)" [APd pd; AErr derr]) (logs o)).
Proof.
  intros e pd dir merr o. subst o. unfold exec, SetUpAt, detachDiskLogError.
  explore e; intros Hin; in_cases Hin;
    injection Hin as ->;
    (split; [reflexivity|]);
    eexists; eexists; (split; [reflexivity|]);
    intros Hd; first [ contradiction Hd; reflexivity | right; left; reflexivity ].
Qed.

Lemma SetUpAt_mkdir_failure_witness :
  let o := exec (SetUpAt builderPD podDir)
             (script [RBool false; ROk; RFail EIO; RFail EBUSY]) in
  In (EvMkdirAll podDir 488 (Some EIO)) (calls o) /\
  result o = Some EIO /\
  In (EvDetachDisk builderPD (Some EBUSY)) (calls o).
Proof.
  assert (Hin : In (EvMkdirAll podDir 488 (Some EIO))
                  (calls (exec (SetUpAt builderPD podDir)
                            (script [RBool false; ROk; RFail EIO; RFail EBUSY]))))
    by (right; right; left; reflexivity).
  split; [exact Hin|].
  destruct (SetUpAt_mkdir_failure
              (script [RBool false; ROk; RFail EIO; RFail EBUSY]) builderPD podDir EIO Hin)
    as [H1 _].
  split; [exact H1|]. right; right; right; left; reflexivity.
Defined.

(** ** Tear-down: the second mount-status query and the removal *)

(** C8, the code at the failing input: the directory is a mount point,
    two more references to the mount remain, the unmount succeeds, and
    the second mount-status query fails with an I/O error.  The failure
    is logged, and TearDownAt returns no error. *)
Theorem TearDownAt_recheck_failure_returns_nil :
  let o := exec (TearDownAt cleanerPD podDir)
             (script [RBool true; RRefs [globalDir; otherPodDir]; ROk; RFail EIO]) in
  calls o = [EvIsMountPoint podDir true None;
             EvGetMountRefs podDir [globalDir; otherPodDir] None;
             EvUnmount podDir 0 None;
             EvIsMountPoint podDir false (Some EIO)] /\
  fst (result o) = None /\
  logs o = [Errorf "isMountpoint check failed: %v" [AErr (Some EIO)]].
Proof. repeat split. Qed.

(** The same in general: whenever the last call of TearDownAt is a
    failed mount-status query that is not the first call, the returned
    error is nil. *)
Lemma TearDownAt_recheck_failure_swallowed :
  forall (e : env) (pd : awsPersistentDisk) (dir : string) (b : bool) (mntErr : error),
    let o := exec (TearDownAt pd dir) e in
    1 < List.length (calls o) ->
    last (calls o) (EvRemove dir None) = EvIsMountPoint dir b (Some mntErr) ->
    fst (result o) = None.
Proof.
  intros e pd dir b mntErr o. subst o. unfold exec, TearDownAt, tearDownRecheck.
  explore e; intros Hlen Hlast; try discriminate Hlast; try reflexivity;
    exfalso; cbn in Hlen; lia.
Qed.

(** The other half of what C8 says does hold: a failed removal of the
    directory is returned. *)
Lemma TearDownAt_removal_failure_returned :
  forall (e : env) (pd : awsPersistentDisk) (dir : string) (rerr : error),
    let o := exec (TearDownAt pd dir) e in
    In (EvRemove dir (Some rerr)) (calls o) ->
    fst (result o) = Some rerr.
Proof.
  intros e pd dir rerr o. subst o. unfold exec, TearDownAt, tearDownRecheck.
  explore e; intros Hin; in_cases Hin; injection Hin as ->; reflexivity.
Qed.

Lemma TearDownAt_removal_failure_returned_witness :
  let o := exec (TearDownAt cleanerPD podDir)
             (script [RBool true; RRefs [globalDir; otherPodDir]; ROk; RBool false;
                      RFail ENOTEMPTY]) in
  In (EvRemove podDir (Some ENOTEMPTY)) (calls o) /\
  fst (result o) = Some ENOTEMPTY.
Proof.
  assert (Hin : In (EvRemove podDir (Some ENOTEMPTY))
                  (calls (exec (TearDownAt cleanerPD podDir)
                            (script [RBool true; RRefs [globalDir; otherPodDir]; ROk;
                                     RBool false; RFail ENOTEMPTY]))))
    by (right; right; right; right; left; reflexivity).
  split; [exact Hin|].
  exact (TearDownAt_removal_failure_returned _ cleanerPD podDir ENOTEMPTY Hin).
Defined.

(** ** Tear-down: when the disk is detached *)



(** C9: whenever TearDownAt calls DetachDisk, the volume it passes has
    its disk identifier set to what the reverse path mapping recovers
    from the one reference that was found, which is never the empty
    string, and that is the volume the call leaves behind; the
    identifier the volume was built with plays no part.  When the
    recovery fails, TearDownAt returns the error of the recovery and does
    not call DetachDisk. *)
Theorem TearDownAt_detach_pdName_recovered :
  forall (e : env) (pd : awsPersistentDisk) (dir : string),
    let o := exec (TearDownAt pd dir) e in
    (forall (pd' : awsPersistentDisk) (derr : option error),
       In (EvDetachDisk pd' derr) (calls o) ->
       exists (ref0 : string) (rest : list event),
         calls o = EvIsMountPoint dir true None
                   :: EvGetMountRefs dir [ref0] None
                   :: EvUnmount dir 0 None
                   :: EvDetachDisk pd' derr :: rest /\
         getPdNameFromGlobalMount (host (plugin pd)) ref0 = (pdName pd', None) /\
         pdName pd' <> "" /\
         pd' = set_pdName pd (pdName pd') /\
         snd (result o) = pd') /\
    (forall (ref0 name : string) (rerr : error),
       In (EvGetMountRefs dir [ref0] None) (calls o) ->
       In (EvUnmount dir 0 None) (calls o) ->
       getPdNameFromGlobalMount (host (plugin pd)) ref0 = (name, Some rerr) ->
       fst (result o) = Some rerr /\
       existsb isDetachDisk (calls o) = false).
Proof.
  intros e pd dir o. subst o. unfold exec, TearDownAt, tearDownRecheck.
  explore e; split.
  all: try (intros pd' derr Hin; in_cases Hin; injection Hin as <- <-;
            eexists; eexists; (split; [reflexivity|]); cbn;
            match goal with
            | H : getPdNameFromGlobalMount _ _ = _ |- _ =>
                rewrite H; pose proof (getPdNameFromGlobalMount_not_empty _ _ _ H)
            end;
            repeat split; assumption).
  all: try (intros ref0 nm rerr H1 H2 H3; in_cases H1; fail).
  all: try (intros ref0 nm rerr H1 H2 H3; in_cases H2; fail).
  all: intros ref0 nm rerr H1 H2 H3; in_cases H1; injection H1 as <-;
    match goal with
    | H : getPdNameFromGlobalMount _ _ = _ |- _ =>
        tryif constr_eq H H3 then fail else rewrite H in H3
    end;
    first [ discriminate H3 | injection H3 as <- <-; split; reflexivity ].
Qed.

(** A volume built for tear-down only, with one reference left: the
    disk identifier passed to DetachDisk is the one of the global
    mount. *)
Lemma TearDownAt_detach_pdName_recovered_witness :
  let o := exec (TearDownAt cleanerPD podDir)
             (script [RBool true; RRefs [globalDir]; ROk; ROk; RBool false; ROk]) in
  pdName cleanerPD = "" /\
  In (EvDetachDisk (set_pdName cleanerPD "aws://us-east-1a/vol-0123456789abcdef0") None)
     (calls o) /\
  exists (ref0 : string) (rest : list event),
    calls o = EvIsMountPoint podDir true None
              :: EvGetMountRefs podDir [ref0] None
              :: EvUnmount podDir 0 None
              :: EvDetachDisk (set_pdName cleanerPD "aws://us-east-1a/vol-0123456789abcdef0")
                   None
              :: rest /\
    getPdNameFromGlobalMount kubeletHost ref0
    = ("aws://us-east-1a/vol-0123456789abcdef0", None).
Proof.
  assert (Hin : In (EvDetachDisk
                      (set_pdName cleanerPD "aws://us-east-1a/vol-0123456789abcdef0") None)
                   (calls (exec (TearDownAt cleanerPD podDir)
                             (script [RBool true; RRefs [globalDir]; ROk; ROk;
                                      RBool false; ROk]))))
    by (right; right; right; left; reflexivity).
  split; [reflexivity|]. split; [exact Hin|].
  destruct (TearDownAt_detach_pdName_recovered
              (script [RBool true; RRefs [globalDir]; ROk; ROk; RBool false; ROk])
              cleanerPD podDir) as [H _].
  destruct (H _ _ Hin) as [ref0 [rest [H1 [H2 _]]]].
  exists ref0, rest. split; [exact H1 | exact H2].
Defined.

(** ** Set-up: the bind mount fails *)

(** The bind mount fails and leaves dir mounted, so the claim as written
    has the directory removed and a detach tried; but the unmount fails,
    and SetUpAt returns with neither done. *)
Lemma SetUpAt_rollback_unmount_fails :
  let o := exec (SetUpAt builderPD podDir)
             (script [RFail ENOENT; ROk; ROk; RFail EMOUNT; RBool true; RFail EBUSY]) in
  calls o = [EvIsMountPoint podDir false (Some ENOENT);
             EvAttachAndMountDisk builderPD globalDir None;
             EvMkdirAll podDir 488 None;
             EvMount globalDir podDir "" mount.FlagBind "" (Some EMOUNT);
             EvIsMountPoint podDir true None;
             EvUnmount podDir 0 (Some EBUSY)] /\
  result o = Some EMOUNT /\
  existsb isRemove (calls o) = false /\
  existsb isDetachDisk (calls o) = false /\
  dirExists podDir false (calls o) = true.
Proof. repeat split. Qed.

(** C5, amended: when SetUpAt has attached the disk, the bind mount
    fails, and the mount-status query that follows shows dir mounted, the
    call tries to unmount dir and returns the error of the bind mount,
    never an error of the clean-up.  When the unmount succeeds and the
    next query shows dir no longer mounted, the call then removes dir,
    without looking at the outcome, and calls DetachDisk; the directory
    is gone afterwards when the removal succeeded.  When the unmount
    fails, the next query fails, or dir is still a mount point, the call
    stops there: dir is not removed and DetachDisk is not called. *)
Theorem SetUpAt_bind_mount_failure_rollback :
  forall (e : env) (pd : awsPersistentDisk) (dir g : string) (flags : N) (err : error),
    let o := exec (SetUpAt pd dir) e in
    In (EvMount g dir "" flags "" (Some err)) (calls o) ->
    In (EvIsMountPoint dir true None) (calls o) ->
    result o = Some err /\
    exists (q uerr : option error) (rest : list event),
      calls o = EvIsMountPoint dir false q
                :: EvAttachAndMountDisk pd g None
                :: EvMkdirAll dir 488 None
                :: EvMount g dir "" flags "" (Some err)
                :: EvIsMountPoint dir true None
                :: EvUnmount dir 0 uerr :: rest /\
      ((uerr = None /\
        exists rerr derr : option error,
          rest = [EvIsMountPoint dir false None; EvRemove dir rerr; EvDetachDisk pd derr] /\
          (rerr = None -> forall before, dirExists dir before (calls o) = false)) \/
       (uerr <> None /\ rest = []) \/
       (uerr = None /\
        exists (b : bool) (mntErr : option error),
          rest = [EvIsMountPoint dir b mntErr] /\ (b = true \/ mntErr <> None))).
Proof.
  intros e pd dir g flags err o. subst o. unfold exec, SetUpAt, detachDiskLogError.
  explore e; intros Hm Hc; in_cases Hm; in_cases Hc;
    inversion Hm; subst;
    (split; [reflexivity|]);
    eexists; eexists; eexists; (split; [reflexivity|]);
    first
      [ solve [ left; split; [reflexivity|];
                eexists; eexists; split; [reflexivity|];
                intros Hr before; inversion Hr; subst; cbn;
                rewrite ?String.eqb_refl; reflexivity ]
      | solve [ right; left; split; [discriminate | reflexivity] ]
      | solve [ right; right; split; [reflexivity|];
                eexists; eexists; split; [reflexivity|];
                first [ left; reflexivity | right; discriminate ] ] ].
Qed.

Lemma SetUpAt_bind_mount_failure_rollback_witness :
  let o := exec (SetUpAt builderPD podDir)
             (script [RFail ENOENT; ROk; ROk; RFail EMOUNT; RBool true; ROk; RBool false]) in
  In (EvMount globalDir podDir "" mount.FlagBind "" (Some EMOUNT)) (calls o) /\
  In (EvIsMountPoint podDir true None) (calls o) /\
  result o = Some EMOUNT /\
  dirExists podDir false (calls o) = false.
Proof.
  assert (Hm : In (EvMount globalDir podDir "" mount.FlagBind "" (Some EMOUNT))
                 (calls (exec (SetUpAt builderPD podDir)
                           (script [RFail ENOENT; ROk; ROk; RFail EMOUNT; RBool true;
                                    ROk; RBool false]))))
    by (right; right; right; left; reflexivity).
  assert (Hc : In (EvIsMountPoint podDir true None)
                 (calls (exec (SetUpAt builderPD podDir)
                           (script [RFail ENOENT; ROk; ROk; RFail EMOUNT; RBool true;
                                    ROk; RBool false]))))
    by (right; right; right; right; left; reflexivity).
  split; [exact Hm|]. split; [exact Hc|].
  destruct (SetUpAt_bind_mount_failure_rollback
              (script [RFail ENOENT; ROk; ROk; RFail EMOUNT; RBool true; ROk; RBool false])
              builderPD podDir globalDir mount.FlagBind EMOUNT Hm Hc) as [H1 _].
  split; [exact H1 | reflexivity].
Defined.

(** ** Tear-down: how often the disk is detached *)

(** A call of TearDownAt calls DetachDisk at most once, and unmounts at
    most once. *)
Lemma TearDownAt_detach_at_most_once :
  forall (e : env) (pd : awsPersistentDisk) (dir : string),
    let o := exec (TearDownAt pd dir) e in
    List.length (filter isDetachDisk (calls o)) <= 1 /\
    List.length (filter isUnmount (calls o)) <= 1.
Proof.
  intros e pd dir o. subst o. unfold exec, TearDownAt, tearDownRecheck.
  explore e; split; lia.
Qed.

(** The three tear-downs of the design document's example, a disk bound
    into two pods: with three or two references nothing is detached, with
    one reference the disk is detached once. *)
Example TearDownAt_three_references :
  let o := exec (TearDownAt cleanerPD podDir)
             (script [RBool true; RRefs [podDir; otherPodDir; globalDir]; ROk;
                      RBool false; ROk]) in
  result o = (None, cleanerPD) /\
  filter isDetachDisk (calls o) = [] /\
  dirExists podDir true (calls o) = false.
Proof. repeat split. Qed.

Example TearDownAt_two_references :
  let o := exec (TearDownAt cleanerPD otherPodDir)
             (script [RBool true; RRefs [otherPodDir; globalDir]; ROk; RBool false; ROk]) in
  result o = (None, cleanerPD) /\
  filter isDetachDisk (calls o) = [].
Proof. repeat split. Qed.

Example TearDownAt_last_reference :
  let o := exec (TearDownAt cleanerPD otherPodDir)
             (script [RBool true; RRefs [globalDir]; ROk; ROk; RBool false; ROk]) in
  fst (result o) = None /\
  pdName (snd (result o)) = "aws://us-east-1a/vol-0123456789abcdef0" /\
  filter isDetachDisk (calls o) = [EvDetachDisk (snd (result o)) None].
Proof. repeat split. Qed.

(** * Further properties of set-up *)

(** A failed attach is returned as it is, and nothing local has been
    touched: no directory made, nothing mounted, and no detach either. *)
Lemma SetUpAt_attach_failure :
  forall (e : env) (pd : awsPersistentDisk) (dir g : string) (aerr : error),
    let o := exec (SetUpAt pd dir) e in
    In (EvAttachAndMountDisk pd g (Some aerr)) (calls o) ->
    result o = Some aerr /\
    g = makeGlobalPDName (host (plugin pd)) (pdName pd) /\
    exists q : option error,
      calls o = [EvIsMountPoint dir false q; EvAttachAndMountDisk pd g (Some aerr)].
Proof.
  intros e pd dir g aerr o. subst o. unfold exec, SetUpAt, detachDiskLogError.
  explore e; intros Hin; in_cases Hin; injection Hin as <- <-;
    repeat split; eexists; reflexivity.
Qed.

Lemma SetUpAt_attach_failure_witness :
  let o := exec (SetUpAt builderPD podDir) (script [RBool false; RFail EIO]) in
  In (EvAttachAndMountDisk builderPD globalDir (Some EIO)) (calls o) /\
  result o = Some EIO /\
  List.length (calls o) = 2.
Proof.
  assert (Hin : In (EvAttachAndMountDisk builderPD globalDir (Some EIO))
                  (calls (exec (SetUpAt builderPD podDir) (script [RBool false; RFail EIO]))))
    by (right; left; reflexivity).
  split; [exact Hin|].
  destruct (SetUpAt_attach_failure _ builderPD podDir globalDir EIO Hin) as [H1 _].
  split; [exact H1 | reflexivity].
Defined.

(** SetUpAt returns nil in two cases only: the first query found dir
    mounted (with no error, or with one that says the path does not
    exist), or the bind mount onto dir succeeded. *)
Lemma SetUpAt_success_iff :
  forall (e : env) (pd : awsPersistentDisk) (dir : string),
    let o := exec (SetUpAt pd dir) e in
    result o = None <->
    (exists q : option error,
       calls o = [EvIsMountPoint dir true q] /\
       (forall err, q = Some err -> os.IsNotExist err = true)) \/
    (exists (g : string) (flags : N), In (EvMount g dir "" flags "" None) (calls o)).
Proof.
  intros e pd dir o. subst o. unfold exec, SetUpAt, detachDiskLogError.
  explore e; split.
  all: try (intros H; discriminate H).
  all: try (intros _; left; eexists; split; [reflexivity|];
            intros err Hq; first [discriminate Hq | injection Hq as <-; assumption]; fail).
  all: try (intros _; right; eexists; eexists; cbn; intuition (auto; fail)).
  all: try (intros [[q [Hc Hq]] | [g [flags Hin]]];
            [ try discriminate Hc; injection Hc as <-;
              specialize (Hq _ eq_refl); congruence
            | in_cases Hin ]; fail).
  all: intros _; reflexivity.
Qed.

(** When SetUpAt returns nil it has undone nothing: no unmount, no
    removal, no detach. *)
Lemma SetUpAt_success_no_rollback :
  forall (e : env) (pd : awsPersistentDisk) (dir : string),
    let o := exec (SetUpAt pd dir) e in
    result o = None ->
    existsb isUnmount (calls o) = false /\
    existsb isRemove (calls o) = false /\
    existsb isDetachDisk (calls o) = false.
Proof.
  intros e pd dir o. subst o. unfold exec, SetUpAt, detachDiskLogError.
  explore e; intros H; try discriminate H; repeat split.
Qed.

Lemma SetUpAt_success_no_rollback_witness :
  let o := exec (SetUpAt builderPD podDir) (script [RFail ENOENT; ROk; ROk; ROk]) in
  result o = None /\
  List.length (calls o) = 4 /\
  existsb isDetachDisk (calls o) = false.
Proof.
  split; [reflexivity|]. split; [reflexivity|].
  exact (proj2 (proj2 (SetUpAt_success_no_rollback
                         (script [RFail ENOENT; ROk; ROk; ROk]) builderPD podDir eq_refl))).
Defined.

(** Whatever SetUpAt mounts is a bind mount of the global path, the one
    the disk was attached at just before, onto dir, which it has created;
    the mount is read-only exactly when the volume is. *)
Lemma SetUpAt_mount_is_bind_of_attached :
  forall (e : env) (pd : awsPersistentDisk) (dir source target fstype data : string)
         (flags : N) (merr : option error),
    let o := exec (SetUpAt pd dir) e in
    In (EvMount source target fstype flags data merr) (calls o) ->
    source = makeGlobalPDName (host (plugin pd)) (pdName pd) /\
    target = dir /\ fstype = "" /\ data = "" /\
    N.land flags mount.FlagBind = mount.FlagBind /\
    N.land flags mount.FlagReadOnly = (if readOnly pd then mount.FlagReadOnly else 0%N) /\
    exists (q : option error) (rest : list event),
      calls o = EvIsMountPoint dir false q
                :: EvAttachAndMountDisk pd source None
                :: EvMkdirAll dir 488 None
                :: EvMount source target fstype flags data merr :: rest.
Proof.
  intros e pd dir source target fstype data flags merr o. subst o.
  unfold exec, SetUpAt, detachDiskLogError.
  explore e; intros Hin; in_cases Hin; injection Hin as <- <- <- <- <- <-;
    (split; [reflexivity|]); (split; [reflexivity|]); (split; [reflexivity|]);
    (split; [reflexivity|]);
    (split; [destruct (readOnly pd); reflexivity|]);
    (split; [destruct (readOnly pd); reflexivity|]);
    eexists; eexists; reflexivity.
Qed.

Lemma SetUpAt_mount_is_bind_of_attached_witness :
  let o := exec (SetUpAt builderPD podDir) (script [RBool false; ROk; ROk; ROk]) in
  In (EvMount globalDir podDir "" mount.FlagBind "" None) (calls o) /\
  globalDir = makeGlobalPDName kubeletHost (pdName builderPD).
Proof.
  assert (Hin : In (EvMount globalDir podDir "" mount.FlagBind "" None)
                  (calls (exec (SetUpAt builderPD podDir)
                            (script [RBool false; ROk; ROk; ROk]))))
    by (right; right; right; left; reflexivity).
  split; [exact Hin|].
  exact (proj1 (SetUpAt_mount_is_bind_of_attached _ builderPD podDir _ _ _ _ _ _ Hin)).
Defined.

(** An error SetUpAt returns is never one of the clean-up: it is the
    error of the first query, of the attach, of the directory creation or
    of the bind mount. *)
Lemma SetUpAt_error_is_primary :
  forall (e : env) (pd : awsPersistentDisk) (dir : string) (x : error),
    let o := exec (SetUpAt pd dir) e in
    result o = Some x ->
    (exists b : bool, calls o = [EvIsMountPoint dir b (Some x)]) \/
    (exists ev : event,
       In ev (firstn 4 (calls o)) /\
       (isAttachAndMountDisk ev || isMkdirAll ev || isMount ev) = true /\
       errorOf ev = Some x).
Proof.
  intros e pd dir x o. subst o. unfold exec, SetUpAt, detachDiskLogError.
  explore e; intros H; try discriminate H; injection H as <-;
    first [ solve [left; eexists; reflexivity]
          | solve [right; eexists; split;
                   [right; left; reflexivity | split; reflexivity]]
          | solve [right; eexists; split;
                   [right; right; left; reflexivity | split; reflexivity]]
          | solve [right; eexists; split;
                   [right; right; right; left; reflexivity | split; reflexivity]] ].
Qed.

Lemma SetUpAt_error_is_primary_witness :
  let o := exec (SetUpAt builderPD podDir)
             (script [RBool false; ROk; ROk; RFail EMOUNT; RBool true; ROk; RBool false;
                      RFail ENOTEMPTY; RFail EBUSY]) in
  result o = Some EMOUNT /\
  List.length (calls o) = 9 /\
  ((exists b : bool, calls o = [EvIsMountPoint podDir b (Some EMOUNT)]) \/
   (exists ev : event,
      In ev (firstn 4 (calls o)) /\
      (isAttachAndMountDisk ev || isMkdirAll ev || isMount ev) = true /\
      errorOf ev = Some EMOUNT)).
Proof.
  split; [reflexivity|]. split; [reflexivity|].
  exact (SetUpAt_error_is_primary
           (script [RBool false; ROk; ROk; RFail EMOUNT; RBool true; ROk; RBool false;
                    RFail ENOTEMPTY; RFail EBUSY]) builderPD podDir EMOUNT eq_refl).
Defined.

(** A first query that fails for another reason than a missing path
    ends SetUpAt at once, with that error. *)
Lemma SetUpAt_query_failure :
  forall (e : env) (pd : awsPersistentDisk) (dir : string) (b : bool) (err : error),
    e _ [] (IsMountPoint dir) = (b, Some err) ->
    os.IsNotExist err = false ->
    let o := exec (SetUpAt pd dir) e in
    result o = Some err /\ calls o = [EvIsMountPoint dir b (Some err)].
Proof.
  intros e pd dir b err H Hne. unfold exec, SetUpAt. cbn. rewrite H. cbn. rewrite Hne.
  cbn. split; reflexivity.
Qed.

Lemma SetUpAt_query_failure_witness :
  let o := exec (SetUpAt builderPD podDir) (script [RFail EIO]) in
  os.IsNotExist EIO = false /\
  result o = Some EIO /\ calls o = [EvIsMountPoint podDir false (Some EIO)].
Proof.
  split; [reflexivity|].
  exact (SetUpAt_query_failure (script [RFail EIO]) builderPD podDir false EIO
           eq_refl eq_refl).
Defined.

(** SetUpAt detaches only what it has attached itself in the same call,
    and only on its way to returning the error of the directory creation
    or of the bind mount; the outcome of the detach is not returned. *)
Lemma SetUpAt_detaches_own_attach :
  forall (e : env) (pd pd' : awsPersistentDisk) (dir : string) (derr : option error),
    let o := exec (SetUpAt pd dir) e in
    In (EvDetachDisk pd' derr) (calls o) ->
    pd' = pd /\
    In (EvAttachAndMountDisk pd (makeGlobalPDName (host (plugin pd)) (pdName pd)) None)
       (calls o) /\
    last (calls o) (EvRemove dir None) = EvDetachDisk pd derr /\
    exists ev : event,
      In ev (calls o) /\ (isMkdirAll ev || isMount ev) = true /\
      errorOf ev = result o /\ result o <> None.
Proof.
  intros e pd pd' dir derr o. subst o. unfold exec, SetUpAt, detachDiskLogError.
  explore e; intros Hin; in_cases Hin; injection Hin as <- <-;
    (split; [reflexivity|]);
    (split; [right; left; reflexivity|]);
    (split; [reflexivity|]);
    first [ solve [eexists; split; [right; right; left; reflexivity|];
                   split; [reflexivity|]; split; [reflexivity | discriminate]]
          | solve [eexists; split; [right; right; right; left; reflexivity|];
                   split; [reflexivity|]; split; [reflexivity | discriminate]] ].
Qed.

Lemma SetUpAt_detaches_own_attach_witness :
  let o := exec (SetUpAt builderPD podDir)
             (script [RBool false; ROk; RFail EIO; RFail EBUSY]) in
  In (EvDetachDisk builderPD (Some EBUSY)) (calls o) /\
  In (EvAttachAndMountDisk builderPD globalDir None) (calls o).
Proof.
  assert (Hin : In (EvDetachDisk builderPD (Some EBUSY))
                  (calls (exec (SetUpAt builderPD podDir)
                            (script [RBool false; ROk; RFail EIO; RFail EBUSY]))))
    by (right; right; right; left; reflexivity).
  split; [exact Hin|].
  exact (proj1 (proj2 (SetUpAt_detaches_own_attach _ builderPD _ podDir _ Hin))).
Defined.

(** The bind mount fails and the query that follows (the fifth call)
    shows dir not mounted: nothing is unmounted; the directory is removed
    and the disk detached, whatever these two return, and the error of
    the bind mount is returned. *)
Lemma SetUpAt_bind_mount_failure_not_mounted :
  forall (e : env) (pd : awsPersistentDisk) (dir : string),
    let o := exec (SetUpAt pd dir) e in
    nth_error (calls o) 4 = Some (EvIsMountPoint dir false None) ->
    exists (q rerr derr : option error) (g : string) (flags : N) (err : error),
      calls o = [EvIsMountPoint dir false q;
                 EvAttachAndMountDisk pd g None;
                 EvMkdirAll dir 488 None;
                 EvMount g dir "" flags "" (Some err);
                 EvIsMountPoint dir false None;
                 EvRemove dir rerr;
                 EvDetachDisk pd derr] /\
      result o = Some err.
Proof.
  intros e pd dir o. subst o. unfold exec, SetUpAt, detachDiskLogError.
  explore e; intros H; try discriminate H;
    do 6 eexists; split; reflexivity.
Qed.

Lemma SetUpAt_bind_mount_failure_not_mounted_witness :
  let o := exec (SetUpAt builderPD podDir)
             (script [RBool false; ROk; ROk; RFail EMOUNT; RBool false; ROk; ROk]) in
  nth_error (calls o) 4 = Some (EvIsMountPoint podDir false None) /\
  exists (q rerr derr : option error) (g : string) (flags : N) (err : error),
    calls o = [EvIsMountPoint podDir false q;
               EvAttachAndMountDisk builderPD g None;
               EvMkdirAll podDir 488 None;
               EvMount g podDir "" flags "" (Some err);
               EvIsMountPoint podDir false None;
               EvRemove podDir rerr;
               EvDetachDisk builderPD derr] /\
    result o = Some err.
Proof.
  split; [reflexivity|].
  exact (SetUpAt_bind_mount_failure_not_mounted
           (script [RBool false; ROk; ROk; RFail EMOUNT; RBool false; ROk; ROk])
           builderPD podDir eq_refl).
Defined.

(** The bind mount fails and the query that follows fails too: SetUpAt
    returns the error of the bind mount and cleans nothing up; the disk
    stays attached and the directory stays. *)
Lemma SetUpAt_bind_mount_failure_check_fails :
  forall (e : env) (pd : awsPersistentDisk) (dir : string) (b : bool) (mntErr : error),
    let o := exec (SetUpAt pd dir) e in
    nth_error (calls o) 4 = Some (EvIsMountPoint dir b (Some mntErr)) ->
    List.length (calls o) = 5 /\
    existsb isUnmount (calls o) = false /\
    existsb isRemove (calls o) = false /\
    existsb isDetachDisk (calls o) = false /\
    (forall before, dirExists dir before (calls o) = true) /\
    exists (g : string) (flags : N) (err : error),
      In (EvMount g dir "" flags "" (Some err)) (calls o) /\ result o = Some err.
Proof.
  intros e pd dir b mntErr o. subst o. unfold exec, SetUpAt, detachDiskLogError.
  explore e; intros H; try discriminate H;
    (split; [reflexivity|]); (split; [reflexivity|]); (split; [reflexivity|]);
    (split; [reflexivity|]);
    (split; [intros before; cbn; rewrite String.eqb_refl; reflexivity|]);
    do 3 eexists; (split; [right; right; right; left; reflexivity | reflexivity]).
Qed.

Lemma SetUpAt_bind_mount_failure_check_fails_witness :
  let o := exec (SetUpAt builderPD podDir)
             (script [RBool false; ROk; ROk; RFail EMOUNT; RFail EIO]) in
  nth_error (calls o) 4 = Some (EvIsMountPoint podDir false (Some EIO)) /\
  List.length (calls o) = 5.
Proof.
  split; [reflexivity|].
  exact (proj1 (SetUpAt_bind_mount_failure_check_fails
                  (script [RBool false; ROk; ROk; RFail EMOUNT; RFail EIO])
                  builderPD podDir false EIO eq_refl)).
Defined.

(** * Further properties of tear-down *)

(** When the references cannot be listed, TearDownAt returns that error
    and leaves everything as it is: dir stays mounted, the volume keeps
    its disk identifier. *)
Lemma TearDownAt_refs_failure :
  forall (e : env) (pd : awsPersistentDisk) (dir : string) (refs : list string)
         (rerr : error),
    let o := exec (TearDownAt pd dir) e in
    In (EvGetMountRefs dir refs (Some rerr)) (calls o) ->
    result o = (Some rerr, pd) /\
    calls o = [EvIsMountPoint dir true None; EvGetMountRefs dir refs (Some rerr)].
Proof.
  intros e pd dir refs rerr o. subst o. unfold exec, TearDownAt, tearDownRecheck.
  explore e; intros Hin; in_cases Hin; injection Hin as <- <-; split; reflexivity.
Qed.

Lemma TearDownAt_refs_failure_witness :
  let o := exec (TearDownAt cleanerPD podDir) (script [RBool true; RFail EIO]) in
  In (EvGetMountRefs podDir [] (Some EIO)) (calls o) /\
  result o = (Some EIO, cleanerPD).
Proof.
  assert (Hin : In (EvGetMountRefs podDir [] (Some EIO))
                  (calls (exec (TearDownAt cleanerPD podDir)
                            (script [RBool true; RFail EIO]))))
    by (right; left; reflexivity).
  split; [exact Hin|].
  exact (proj1 (TearDownAt_refs_failure _ cleanerPD podDir [] EIO Hin)).
Defined.

(** TearDownAt unmounts nothing but dir, and only after a query that
    found dir mounted and a listing of the references that succeeded: the
    references are always taken before the unmount.  A failed unmount is
    returned at once; the disk is not detached and dir is not removed. *)
Lemma TearDownAt_unmount_after_refs :
  forall (e : env) (pd : awsPersistentDisk) (dir target : string) (flags : N)
         (uerr : option error),
    let o := exec (TearDownAt pd dir) e in
    In (EvUnmount target flags uerr) (calls o) ->
    target = dir /\ flags = 0%N /\
    (exists (refs : list string) (rest : list event),
       calls o = EvIsMountPoint dir true None
                 :: EvGetMountRefs dir refs None
                 :: EvUnmount dir 0 uerr :: rest /\
       (uerr <> None -> rest = [])) /\
    (uerr <> None -> result o = (uerr, pd)).
Proof.
  intros e pd dir target flags uerr o. subst o.
  unfold exec, TearDownAt, tearDownRecheck.
  explore e; intros Hin; in_cases Hin; injection Hin as <- <- <-;
    (split; [reflexivity|]); (split; [reflexivity|]);
    (split; [eexists; eexists; split; [reflexivity|];
             intros Hu; first [reflexivity | contradiction Hu; reflexivity]|]);
    intros Hu; first [reflexivity | contradiction Hu; reflexivity].
Qed.

Lemma TearDownAt_unmount_after_refs_witness :
  let o := exec (TearDownAt cleanerPD podDir)
             (script [RBool true; RRefs [globalDir; otherPodDir]; RFail EBUSY]) in
  In (EvUnmount podDir 0 (Some EBUSY)) (calls o) /\
  result o = (Some EBUSY, cleanerPD).
Proof.
  assert (Hin : In (EvUnmount podDir 0 (Some EBUSY))
                  (calls (exec (TearDownAt cleanerPD podDir)
                            (script [RBool true; RRefs [globalDir; otherPodDir];
                                     RFail EBUSY]))))
    by (right; right; left; reflexivity).
  split; [exact Hin|].
  apply (proj2 (proj2 (proj2 (TearDownAt_unmount_after_refs _ cleanerPD podDir _ _ _ Hin)))).
  discriminate.
Defined.

(** A failed detach is returned, and TearDownAt stops there: dir, though
    unmounted, is neither looked at again nor removed. *)
Lemma TearDownAt_detach_failure :
  forall (e : env) (pd pd' : awsPersistentDisk) (dir : string) (derr : error),
    let o := exec (TearDownAt pd dir) e in
    In (EvDetachDisk pd' (Some derr)) (calls o) ->
    result o = (Some derr, pd') /\
    last (calls o) (EvRemove dir None) = EvDetachDisk pd' (Some derr) /\
    List.length (calls o) = 4 /\
    existsb isRemove (calls o) = false.
Proof.
  intros e pd pd' dir derr o. subst o. unfold exec, TearDownAt, tearDownRecheck.
  explore e; intros Hin; in_cases Hin; injection Hin as <- <-; repeat split.
Qed.

Lemma TearDownAt_detach_failure_witness :
  let o := exec (TearDownAt cleanerPD podDir)
             (script [RBool true; RRefs [globalDir]; ROk; RFail EIO]) in
  In (EvDetachDisk (set_pdName cleanerPD "aws://us-east-1a/vol-0123456789abcdef0")
        (Some EIO)) (calls o) /\
  fst (result o) = Some EIO /\
  dirExists podDir true (calls o) = true.
Proof.
  assert (Hin : In (EvDetachDisk
                      (set_pdName cleanerPD "aws://us-east-1a/vol-0123456789abcdef0")
                      (Some EIO))
                  (calls (exec (TearDownAt cleanerPD podDir)
                            (script [RBool true; RRefs [globalDir]; ROk; RFail EIO]))))
    by (right; right; right; left; reflexivity).
  split; [exact Hin|].
  split; [|reflexivity].
  now rewrite (proj1 (TearDownAt_detach_failure _ cleanerPD _ podDir EIO Hin)).
Defined.

(** With an error, the reverse mapping returns the empty name. *)
Lemma getPdNameFromGlobalMount_error_name (h : VolumeHost) (g name : string) (err : error) :
  getPdNameFromGlobalMount h g = (name, Some err) -> name = "".
Proof.
  unfold getPdNameFromGlobalMount, getPdNameFromGlobalMountN.
  destruct (filepath.Rel _ g) as [rel [x|]]; [intros H; now injection H as <- _|].
  destruct (strings.Contains rel "../"); [intros H; now injection H as <- _|].
  discriminate.
Qed.

(** TearDownAt assigns the volume's disk identifier in one case only:
    one reference was listed and the unmount succeeded.  The identifier
    is then whatever the reverse mapping gave for that reference, the
    empty string when the mapping failed, and what the volume had before
    is lost.  In every other case the volume is left as it was. *)
Lemma TearDownAt_pdName_assignment :
  forall (e : env) (pd : awsPersistentDisk) (dir : string),
    let o := exec (TearDownAt pd dir) e in
    (forall ref0 : string,
       In (EvGetMountRefs dir [ref0] None) (calls o) ->
       In (EvUnmount dir 0 None) (calls o) ->
       snd (result o)
       = set_pdName pd (fst (getPdNameFromGlobalMount (host (plugin pd)) ref0)) /\
       (snd (getPdNameFromGlobalMount (host (plugin pd)) ref0) <> None ->
        pdName (snd (result o)) = "")) /\
    ((forall ref0 : string,
        ~ (In (EvGetMountRefs dir [ref0] None) (calls o) /\
           In (EvUnmount dir 0 None) (calls o))) ->
     snd (result o) = pd).
Proof.
  intros e pd dir o. subst o. unfold exec, TearDownAt, tearDownRecheck.
  explore e; split.
  all: try (intros ref0 H1 H2; in_cases H1; fail).
  all: try (intros ref0 H1 H2; in_cases H2; fail).
  all: try (intros H; reflexivity).
  all: try (intros ref0 H1 H2; in_cases H1; injection H1 as <-;
            match goal with
            | H : getPdNameFromGlobalMount _ _ = _ |- _ => rewrite H
            end;
            cbn; split; [reflexivity|]; intros Hn;
            first [ reflexivity
                  | contradiction Hn; reflexivity
                  | match goal with
                    | H : getPdNameFromGlobalMount _ _ = (_, Some _) |- _ =>
                        apply getPdNameFromGlobalMount_error_name in H; exact H
                    end ]; fail).
  all: try (intros H; exfalso; eapply H; split;
            [right; left; reflexivity | right; right; left; reflexivity]).
Qed.

Lemma TearDownAt_pdName_assignment_witness :
  let o := exec (TearDownAt builderPD podDir)
             (script [RBool true; RRefs ["/mnt/elsewhere"]; ROk]) in
  pdName builderPD = "aws://us-east-1a/vol-0123456789abcdef0" /\
  In (EvGetMountRefs podDir ["/mnt/elsewhere"] None) (calls o) /\
  In (EvUnmount podDir 0 None) (calls o) /\
  pdName (snd (result o)) = "".
Proof.
  assert (H1 : In (EvGetMountRefs podDir ["/mnt/elsewhere"] None)
                 (calls (exec (TearDownAt builderPD podDir)
                           (script [RBool true; RRefs ["/mnt/elsewhere"]; ROk]))))
    by (right; left; reflexivity).
  assert (H2 : In (EvUnmount podDir 0 None)
                 (calls (exec (TearDownAt builderPD podDir)
                           (script [RBool true; RRefs ["/mnt/elsewhere"]; ROk]))))
    by (right; right; left; reflexivity).
  split; [reflexivity|]. split; [exact H1|]. split; [exact H2|].
  apply (proj2 (proj1 (TearDownAt_pdName_assignment
                         (script [RBool true; RRefs ["/mnt/elsewhere"]; ROk])
                         builderPD podDir) "/mnt/elsewhere" H1 H2)).
  discriminate.
Defined.

(** The two directions do not mix: TearDownAt never attaches, mounts or
    creates a directory, and SetUpAt never lists references. *)
Lemma SetUpAt_TearDownAt_separate :
  forall (e : env) (pd : awsPersistentDisk) (dir : string),
    (let o := exec (TearDownAt pd dir) e in
     existsb isAttachAndMountDisk (calls o) = false /\
     existsb isMount (calls o) = false /\
     existsb isMkdirAll (calls o) = false) /\
    (let o := exec (SetUpAt pd dir) e in
     existsb isGetMountRefs (calls o) = false).
Proof.
  intros e pd dir. split.
  - unfold exec, TearDownAt, tearDownRecheck. explore e; repeat split.
  - unfold exec, SetUpAt, detachDiskLogError. explore e; reflexivity.
Qed.

(** What a nil from TearDownAt stands for: dir was unmounted, or it was
    no mount point and has been removed.  And after a nil the directory
    is gone, unless the last query failed or found dir still mounted. *)
Lemma TearDownAt_nil_meaning :
  forall (e : env) (pd : awsPersistentDisk) (dir : string),
    let o := exec (TearDownAt pd dir) e in
    fst (result o) = None ->
    (In (EvUnmount dir 0 None) (calls o) \/
     calls o = [EvIsMountPoint dir false None; EvRemove dir None]) /\
    ((forall before, dirExists dir before (calls o) = false) \/
     (exists (b : bool) (mntErr : option error),
        1 < List.length (calls o) /\
        last (calls o) (EvRemove dir None) = EvIsMountPoint dir b mntErr /\
        (b = true \/ mntErr <> None))).
Proof.
  intros e pd dir o. subst o. unfold exec, TearDownAt, tearDownRecheck.
  explore e; intros H; try discriminate H; split.
  all: try (left; right; right; left; reflexivity).
  all: try (right; reflexivity).
  all: try (left; intros before; cbn; rewrite ?String.eqb_refl; reflexivity).
  all: right; eexists; eexists; (split; [cbn; lia|]); (split; [reflexivity|]);
    first [left; reflexivity | right; discriminate].
Qed.

Lemma TearDownAt_nil_meaning_witness :
  let o := exec (TearDownAt cleanerPD podDir)
             (script [RBool true; RRefs [globalDir; otherPodDir]; ROk; RBool true]) in
  fst (result o) = None /\
  In (EvUnmount podDir 0 None) (calls o) /\
  dirExists podDir true (calls o) = true.
Proof.
  split; [reflexivity|].
  destruct (proj1 (TearDownAt_nil_meaning
                     (script [RBool true; RRefs [globalDir; otherPodDir]; ROk; RBool true])
                     cleanerPD podDir eq_refl)) as [H|H].
  - split; [exact H | reflexivity].
  - discriminate H.
Defined.

(** * Further properties of the path mapper *)

Lemma Join_any (P x : string) :
  path.Join [P; "mounts"; x] =
  path.render (path.isRooted P)
    (path.cleanElems (path.isRooted P) ("mounts" :: pluginStack P) (strings.SplitSlash x)).
Proof.
  assert (Hm : strings.SplitSlash (String "m" (String "o" (String "u" (String "n"
                 (String "t" (String "s" (String "/" x)))))))
               = "mounts" :: strings.SplitSlash x).
  { cbn. destruct (strings.SplitSlash x) eqn:E; reflexivity. }
  unfold pluginStack. destruct (String.eqb_spec P "") as [->|HP].
  - cbn [path.Join String.eqb Ascii.eqb Bool.eqb]. cbn [strings.Join].
    unfold path.Clean. cbn [String.append String.eqb path.isRooted Ascii.eqb Bool.eqb].
    rewrite Hm. reflexivity.
  - cbn [path.Join]. apply String.eqb_neq in HP. rewrite HP. apply String.eqb_neq in HP.
    rewrite Join_cons by discriminate. rewrite Join_cons by discriminate. cbn [strings.Join].
    unfold path.Clean.
    destruct (String.eqb_spec (P ++ String "/" ("mounts" ++ String "/" x)) "") as [E|_];
      [destruct P; [congruence | discriminate E]|].
    rewrite isRooted_app by assumption. rewrite SplitSlash_app_slash, cleanElems_app.
    cbn [String.append]. rewrite Hm. reflexivity.
Qed.

Lemma firstDiff_common_prefix (X Y b t : list string) (k : bool) :
  filepath.firstDiff X Y = (b, t, k) ->
  exists c : list string, X = (c ++ b)%list /\ Y = (c ++ t)%list.
Proof.
  revert Y. induction X as [|x X IH]; intros Y F.
  - cbn in F. injection F as <- <- <-. now exists [].
  - destruct Y as [|y Y].
    + cbn in F. injection F as <- <- <-. now exists [].
    + cbn [filepath.firstDiff] in F.
      destruct (filepath.isEmptyRest (x :: X) || filepath.isEmptyRest (y :: Y)).
      * injection F as <- <- <-. now exists [].
      * destruct (String.eqb_spec y x) as [->|Hne].
        -- destruct (IH Y F) as [c [-> ->]]. now exists (x :: c).
        -- injection F as <- <- <-. now exists [].
Qed.

Lemma dotdots_head (n : nat) (s : string) :
  strings.HasPrefix (filepath.dotdots n ++ s) "../" = true <->
  (0 < n \/ strings.HasPrefix s "/" = true).
Proof.
  destruct n as [|n].
  - cbn. destruct s as [|c s]; cbn; [split; [discriminate | intros [H|H]; [lia | discriminate]]|].
    rewrite andb_true_r. split; [now right | intros [H|H]; [lia | exact H]].
  - split; [intros _; left; lia | intros _].
    assert (H : exists u, filepath.dotdots (S n) = "../" ++ u).
    { induction n as [|n [u IH]]; [now exists ".."|].
      change (filepath.dotdots (S (S n))) with (filepath.dotdots (S n) ++ "/..").
      rewrite IH. exists (u ++ "/.."). now rewrite append_assoc. }
    destruct H as [u ->]. reflexivity.
Qed.

Lemma Contains_head (s p : string) :
  strings.HasPrefix s p = true -> strings.Contains s p = true.
Proof. destruct s; cbn; intros ->; reflexivity. Qed.

Lemma CountSlash_app (a b : string) :
  strings.CountSlash (a ++ b) = strings.CountSlash a + strings.CountSlash b.
Proof. induction a as [|c a IH]; cbn; [reflexivity | rewrite IH; lia]. Qed.

Lemma CountSlash_Join_single (l : list string) :
  filepath.isEmptyRest l = false ->
  strings.CountSlash (strings.Join l "/") = 0 ->
  exists x, l = [x] /\ x <> "".
Proof.
  destruct l as [|x [|y l']]; intros E H; [discriminate E | |].
  - exists x. split; [reflexivity|]. cbn in E. now apply String.eqb_neq.
  - rewrite Join_cons in H by discriminate. rewrite CountSlash_app in H. cbn in H. lia.
Qed.

Lemma normal_above_plain (r : bool) (l out : list string) (x : string) :
  x <> ".." -> normal r (l ++ x :: out) ->
  Forall (fun e => plainElem e = true) l /\ Forall (fun e => slashFree e = true) l.
Proof.
  intros Hx. induction l as [|a l IH]; intros Hn; [split; constructor|].
  cbn in Hn. destruct Hn as [A [B [C [D N]]]].
  destruct (IH N) as [Hp Hs]. split; [|now constructor].
  constructor; [|exact Hp]. apply plainElem_spec. repeat split; try assumption.
  intros ->. destruct (D eq_refl) as [_ Hy].
  destruct l as [|y l']; cbn in Hy; [congruence|].
  subst y. inversion Hp as [|? ? Hy _]; subst. discriminate Hy.
Qed.

(** What a relative path without [../] says about the target, for a
    base that ends in [mounts]: the target is the base, or its parent, or
    lies below it. *)
Lemma Rel_inversion (r : bool) (S0 : list string) (g rel : string) :
  normal r S0 ->
  filepath.Rel (path.render r ("mounts" :: S0)) g = (rel, None) ->
  strings.Contains rel "../" = false ->
  (rel = "." /\ path.Clean g = path.render r ("mounts" :: S0)) \/
  (rel = ".." /\ path.Clean g = path.render r S0) \/
  (exists t : list string,
     t <> [] /\
     Forall (fun e => plainElem e = true) t /\
     Forall (fun e => slashFree e = true) t /\
     rel = strings.Join t "/" /\
     path.Clean g = path.render r (rev t ++ "mounts" :: S0)).
Proof.
  intros NS. pose proof (normal_mounts r S0 NS) as NB.
  assert (HB : "mounts" :: S0 <> []) by discriminate.
  unfold filepath.Rel. rewrite (Clean_render r _ HB NB).
  destruct (Clean_is_render g) as [T [NT ->]].
  set (rt := path.isRooted g) in *.
  destruct (String.eqb_spec (path.render rt T) (path.render r ("mounts" :: S0))) as [E|Hneq];
    [intros H _; injection H as <-; left; split; [reflexivity | exact E]|].
  destruct (String.eqb_spec (path.render r ("mounts" :: S0)) ".") as [E|_].
  { exfalso. apply (f_equal strings.SplitSlash) in E.
    rewrite SplitSlash_render in E by assumption. cbn [rev] in E.
    destruct r; cbn in E; [discriminate E|].
    destruct (rev S0) as [|a [|b l]]; cbn in E; discriminate E. }
  rewrite (isRooted_render r _ HB NB), (isRooted_render_any rt T NT).
  destruct (Bool.eqb r rt) eqn:Er; cbn [negb]; [|discriminate].
  apply Bool.eqb_prop in Er. subst rt. rewrite <- Er in *. clear Er.
  unfold filepath.restElems.
  destruct (String.eqb_spec (path.render r ("mounts" :: S0)) "") as [E|_];
    [now apply render_not_empty in E|].
  destruct (String.eqb_spec (path.render r T) "") as [E|_];
    [now apply render_any_not_empty in E|].
  destruct (filepath.firstDiff _ _) as [[b t] k] eqn:F.
  destruct (k && (hd "" b =? "..")); [discriminate|].
  pose proof (firstDiff_common_prefix _ _ _ _ _ F) as [c [Hb Ht]].
  rewrite (SplitSlash_render r _ HB NB) in Hb. cbn [rev] in Hb.
  destruct (filepath.isEmptyRest b) eqn:Eb; cbn [negb].
  - (* the whole base is a prefix of the target *)
    pose proof (firstDiff_target_left r _ T b t k HB NB NT Hneq F Eb) as Et.
    intros H Hc. injection H as <-. right. right.
    unfold filepath.restString. rewrite Et.
    assert (Hbn : b = []).
    { destruct b as [|x [|y b']]; [reflexivity | | discriminate Eb].
      cbn in Eb. apply String.eqb_eq in Eb. subst x.
      rewrite app_assoc in Hb. apply app_inj_tail in Hb as [_ Hb]. discriminate Hb. }
    subst b. rewrite app_nil_r in Hb. subst c.
    assert (Htn : t <> []) by (intros ->; discriminate Et).
    destruct T as [|x T].
    { exfalso. destruct r; cbn in Ht.
      - injection Ht as Ht. destruct (rev S0) as [|a l]; cbn in Ht.
        + injection Ht as Ht _. discriminate Ht.
        + injection Ht as _ Ht. destruct l; discriminate Ht.
      - destruct (rev S0) as [|a l]; cbn in Ht.
        + injection Ht as Ht _. discriminate Ht.
        + injection Ht as _ Ht. destruct l; discriminate Ht. }
    assert (HT : x :: T <> []) by discriminate.
    rewrite (SplitSlash_render r _ HT NT) in Ht.
    rewrite <- app_assoc in Ht. apply app_inv_head in Ht.
    assert (ET : x :: T = (rev t ++ "mounts" :: S0)%list).
    { rewrite <- (rev_involutive (x :: T)), Ht, !rev_app_distr, rev_involutive.
      reflexivity. }
    rewrite ET in NT |- *.
    destruct (normal_above_plain r (rev t) S0 "mounts" ltac:(discriminate) NT) as [Hp Hs].
    exists t. split; [exact Htn|].
    split; [rewrite <- (rev_involutive t); now apply Forall_rev|].
    split; [rewrite <- (rev_involutive t); now apply Forall_rev|].
    split; reflexivity.
  - (* elements of the base are left: the result goes up *)
    intros H Hc. injection H as <-. right. left.
    assert (Hh : strings.HasPrefix
                   (filepath.dotdots (strings.CountSlash (filepath.restString b)) ++
                    (if negb (filepath.isEmptyRest t)
                     then String "/" (filepath.restString t) else "")) "../" = false).
    { destruct (strings.HasPrefix _ "../") eqn:Eh; [|reflexivity].
      apply Contains_head in Eh. congruence. }
    assert (Hn : strings.CountSlash (filepath.restString b) = 0 /\
                 filepath.isEmptyRest t = true).
    { destruct (strings.CountSlash (filepath.restString b)) as [|n] eqn:En.
      - split; [reflexivity|]. destruct (filepath.isEmptyRest t); [reflexivity|].
        exfalso. cbn [negb] in Hh.
        assert (Hh' : strings.HasPrefix
                        (filepath.dotdots 0 ++ String "/" (filepath.restString t)) "../"
                      = true)
          by (apply dotdots_head; right; reflexivity).
        congruence.
      - exfalso.
        assert (Hh' : strings.HasPrefix
                        (filepath.dotdots (S n) ++
                         (if negb (filepath.isEmptyRest t)
                          then String "/" (filepath.restString t) else "")) "../" = true)
          by (apply dotdots_head; left; lia).
        congruence. }
    destruct Hn as [Hn Et]. rewrite Hn, Et. cbn [negb filepath.dotdots].
    split; [reflexivity|].
    unfold filepath.restString in Hn. rewrite Eb in Hn.
    destruct (CountSlash_Join_single b Eb Hn) as [x [-> Hx]].
    rewrite app_assoc in Hb. apply app_inj_tail in Hb as [Hb _]. subst c.
    assert (NSe : forall e, In e S0 -> e <> "" /\ e <> ".").
    { intros e He. destruct (normal_In r S0 e NS He) as [_ H]. exact H. }
    destruct T as [|y T].
    + (* the target is the root or the current directory *)
      destruct r; cbn in Ht.
      * injection Ht as Ht. destruct t as [|u [|v t']]; [| |discriminate Et].
        -- rewrite app_nil_r in Ht. exfalso.
           assert (Hin : In "" S0) by (apply in_rev; rewrite <- Ht; now left).
           destruct (NSe _ Hin) as [H1 _]. congruence.
        -- destruct (rev S0) as [|a l] eqn:ER.
           ++ apply (f_equal (@rev string)) in ER. rewrite rev_involutive in ER.
              now rewrite ER.
           ++ cbn in Ht. injection Ht as _ Ht. destruct l; discriminate Ht.
      * exfalso. destruct t as [|u [|v t']]; [| |discriminate Et].
        -- rewrite app_nil_r in Ht.
           assert (Hin : In "." S0) by (apply in_rev; rewrite <- Ht; now left).
           destruct (NSe _ Hin) as [_ H2]. congruence.
        -- cbn in Et. apply String.eqb_eq in Et. subst u.
           change ["."] with ([] ++ ["."])%list in Ht.
           apply app_inj_tail in Ht as [_ Ht]. discriminate Ht.
    + assert (HT : y :: T <> []) by discriminate.
      rewrite (SplitSlash_render r _ HT NT) in Ht.
      rewrite <- app_assoc in Ht. apply app_inv_head in Ht.
      destruct t as [|u [|v t']]; [| |discriminate Et].
      * rewrite app_nil_r in Ht. apply (f_equal (@rev string)) in Ht.
        rewrite !rev_involutive in Ht. now rewrite Ht.
      * exfalso. cbn in Et. apply String.eqb_eq in Et. subst u.
        cbn [rev] in Ht. apply app_inj_tail in Ht as [_ Ht].
        cbn in NT. destruct NT as [_ [NT _]]. congruence.
Qed.

Lemma cleanName_of_plain (t : list string) :
  t <> [] ->
  Forall (fun e => plainElem e = true) t ->
  Forall (fun e => slashFree e = true) t ->
  cleanName (strings.Join t "/") = true /\ strings.SplitSlash (strings.Join t "/") = t.
Proof.
  intros Hne Hp Hs. pose proof (SplitSlash_Join t Hne Hs) as E.
  split; [|exact E]. unfold cleanName. rewrite E. apply forallb_forall.
  now apply Forall_forall.
Qed.

Lemma cleanName_aws_tail (rest : string) :
  cleanName ("aws/" ++ rest) = true -> cleanName rest = true.
Proof.
  unfold cleanName. cbn. destruct (strings.SplitSlash rest) eqn:E; cbn; [|tauto].
  now apply SplitSlash_nonempty in E.
Qed.

(** The forward mapping of what the reverse mapping returns, for a
    name [rel] that is clean. *)
Lemma forward_of_recovered (h : VolumeHost) (rel : string) :
  cleanName rel = true ->
  strings.Replace
    (if strings.HasPrefix rel "aws/" then strings.Replace rel "aws/" "aws://" 1 else rel)
    "://" "/" (-1) = rel.
Proof.
  intros Hc. destruct (strings.HasPrefix rel "aws/") eqn:Hp.
  - apply HasPrefix_split in Hp as [rest ->].
    rewrite Replace_aws_backward. apply Replace_aws_forward. now apply cleanName_aws_tail.
  - now apply Replace_scheme_id.
Qed.

(** The way back: a name the reverse mapping recovers from a global path
    is mapped forward to that path again (in its clean form).  So the
    disk identifier handed to DetachDisk names the global mount that was
    found, also for the mount root and its parent. *)
Theorem makeGlobalPDName_of_recovered :
  forall (h : VolumeHost) (globalPath name : string),
    getPdNameFromGlobalMount h globalPath = (name, None) ->
    makeGlobalPDName h name = path.Clean globalPath.
Proof.
  intros h g name. unfold getPdNameFromGlobalMount, getPdNameFromGlobalMountN, makeGlobalPDName. cbv zeta.
  rewrite Join_base.
  set (P := GetPluginDir h awsPersistentDiskPluginName).
  destruct (filepath.Rel _ g) as [rel [x|]] eqn:R; [discriminate|].
  destruct (strings.Contains rel "../") eqn:Hc; [discriminate|].
  intros H. injection H as <-.
  pose proof (pluginStack_normal P) as NS.
  destruct (Rel_inversion _ _ _ _ NS R Hc)
    as [[-> E] | [[-> E] | [t [Hne [Hp [Hs [-> E]]]]]]]; rewrite E.
  - cbn [strings.HasPrefix]. rewrite Join_any. reflexivity.
  - cbn [strings.HasPrefix]. rewrite Join_any. reflexivity.
  - destruct (cleanName_of_plain t Hne Hp Hs) as [Hcn Hsp].
    pose proof (forward_of_recovered h _ Hcn) as Hf.
    cbn [strings.HasPrefix] in Hf |- *. rewrite Hf, (Join_targ _ _ Hcn), Hsp. reflexivity.
Qed.

Lemma makeGlobalPDName_of_recovered_witness :
  getPdNameFromGlobalMount kubeletHost
    "/var/lib/kubelet/plugins/kubernetes.io/aws-pd/mounts//aws/us-east-1a/vol-1/"
  = ("aws://us-east-1a/vol-1", None) /\
  makeGlobalPDName kubeletHost "aws://us-east-1a/vol-1"
  = "/var/lib/kubelet/plugins/kubernetes.io/aws-pd/mounts/aws/us-east-1a/vol-1".
Proof.
  split; [reflexivity|].
  exact (makeGlobalPDName_of_recovered kubeletHost
           "/var/lib/kubelet/plugins/kubernetes.io/aws-pd/mounts//aws/us-east-1a/vol-1/"
           "aws://us-east-1a/vol-1" eq_refl).
Defined.

(** The first replacement of the reverse mapping, for any count that
    allows one: the leading [aws/] becomes [aws://], and the scan goes on
    in the rest with one replacement less. *)
Lemma Replace_aws_head (J : string) (n : Z) :
  n <> 0%Z ->
  strings.Replace ("aws/" ++ J) "aws/" "aws://" n
  = "aws://" ++ strings.Replace J "aws/" "aws://" (n - 1).
Proof.
  intros Hn. unfold strings.Replace. cbn.
  apply Z.eqb_neq in Hn. rewrite Hn. reflexivity.
Qed.

(** Replacing [aws/] by [aws://] leaves the first byte of a string as it
    is. *)
Lemma replaceFrom_aws_first (n : Z) (s : string) (c : ascii) :
  strings.HasPrefix (strings.replaceFrom "aws/" "aws://" n 0 s) (String c "")
  = strings.HasPrefix s (String c "").
Proof.
  destruct s as [|d s]; [reflexivity|].
  cbn [strings.replaceFrom]. destruct (n =? 0)%Z; [reflexivity|].
  destruct (strings.HasPrefix (String d s) "aws/") eqn:Hp.
  - apply HasPrefix_split in Hp as [t Ht]. cbn in Ht. injection Ht as -> _.
    reflexivity.
  - reflexivity.
Qed.

Lemma replaceFrom_aws_dot_slash (n : Z) (s : string) :
  strings.HasPrefix (strings.replaceFrom "aws/" "aws://" n 0 s) "./"
  = strings.HasPrefix s "./".
Proof.
  destruct s as [|d s]; [reflexivity|].
  cbn [strings.replaceFrom]. destruct (n =? 0)%Z; [reflexivity|].
  destruct (strings.HasPrefix (String d s) "aws/") eqn:Hp.
  - apply HasPrefix_split in Hp as [t Ht]. cbn in Ht. injection Ht as -> _.
    reflexivity.
  - pose proof (replaceFrom_aws_first n s "/") as E.
    cbn [strings.HasPrefix] in E |- *. now rewrite E.
Qed.

Lemma replaceFrom_aws_no_dotdot (m : nat) :
  forall (s : string) (n : Z),
    String.length s <= m ->
    strings.Contains s "../" = false ->
    strings.Contains (strings.replaceFrom "aws/" "aws://" n 0 s) "../" = false.
Proof.
  induction m as [|m IH]; intros s n Hl H.
  - destruct s; [reflexivity | cbn in Hl; lia].
  - destruct s as [|c s]; [reflexivity|].
    cbn [strings.replaceFrom]. destruct (n =? 0)%Z; [exact H|].
    destruct (strings.HasPrefix (String c s) "aws/") eqn:Hp.
    + apply HasPrefix_split in Hp as [t Ht]. cbn in Ht. injection Ht as -> ->.
      cbn. apply IH.
      * cbn in Hl. lia.
      * exact H.
    + cbn [strings.Contains] in H |- *. apply orb_false_iff in H as [H1 H2].
      apply orb_false_iff. split.
      * pose proof (replaceFrom_aws_dot_slash n s) as E.
        cbn [strings.HasPrefix] in H1, E |- *. now rewrite E.
      * apply IH; [cbn in Hl; lia | exact H2].
Qed.

(** Putting [://] back behind [aws] never produces the text [../],
    whatever the count. *)
Lemma Replace_aws_no_dotdot (s : string) (n : Z) :
  strings.Contains s "../" = false ->
  strings.Contains (strings.Replace s "aws/" "aws://" n) "../" = false.
Proof. apply (replaceFrom_aws_no_dotdot (String.length s)). lia. Qed.

(** Whether the reverse mapping accepts a path, and the error it gives
    when it does not, do not depend on the count. *)
Lemma getPdNameFromGlobalMountN_error_any_count (n : Z) (h : VolumeHost) (g : string) :
  snd (getPdNameFromGlobalMountN n h g) = snd (getPdNameFromGlobalMount h g).
Proof.
  unfold getPdNameFromGlobalMount, getPdNameFromGlobalMountN.
  destruct (filepath.Rel _ g) as [rel [x|]]; [reflexivity|].
  destruct (strings.Contains rel "../"); reflexivity.
Qed.

(** Every name the reverse mapping returns has one of four shapes,
    whatever count its call of [strings.Replace] is read with, as long
    as the count allows a replacement: [.] (the mount root), [..] (its
    parent), a clean relative path that does not start with [aws/], or
    [aws://] followed by what the remaining replacements make of a clean
    relative path [rest].  That is [rest] itself when the count is 1 or
    [aws/] does not occur in [rest].  No name contains the text [../]. *)
Theorem getPdNameFromGlobalMount_shape :
  forall (count : Z) (h : VolumeHost) (globalPath name : string),
    count <> 0%Z ->
    getPdNameFromGlobalMountN count h globalPath = (name, None) ->
    strings.Contains name "../" = false /\
    (name = "." \/ name = ".." \/
     (cleanName name = true /\ strings.HasPrefix name "aws/" = false) \/
     (exists rest : string,
        cleanName rest = true /\
        name = "aws://" ++ strings.Replace rest "aws/" "aws://" (count - 1) /\
        (count = 1%Z \/ strings.Contains rest "aws/" = false ->
         name = "aws://" ++ rest))).
Proof.
  intros count h g name Hn. unfold getPdNameFromGlobalMountN. cbv zeta.
  rewrite Join_base.
  set (P := GetPluginDir h awsPersistentDiskPluginName).
  destruct (filepath.Rel _ g) as [rel [x|]] eqn:R; [discriminate|].
  destruct (strings.Contains rel "../") eqn:Hc; [discriminate|].
  pose proof (pluginStack_normal P) as NS.
  destruct (Rel_inversion _ _ _ _ NS R Hc)
    as [[-> E] | [[-> E] | [t [Hne [Hp [Hs [-> E]]]]]]].
  - intros H. injection H as <-. split; [reflexivity | now left].
  - intros H. injection H as <-. split; [reflexivity | right; now left].
  - destruct (cleanName_of_plain t Hne Hp Hs) as [Hcn _].
    destruct (strings.HasPrefix (strings.Join t "/") "aws/") eqn:Ha.
    + intros H. injection H as <-.
      split; [now apply Replace_aws_no_dotdot|].
      apply HasPrefix_split in Ha as [rest Ha]. rewrite Ha in *.
      right. right. right. exists rest.
      split; [now apply cleanName_aws_tail|].
      split; [now apply Replace_aws_head|].
      intros [-> | Hr].
      * apply Replace_aws_backward.
      * now apply Replace_aws_backward_any_count.
    + intros H. injection H as <-. split; [exact Hc|]. right. right. left. now split.
Qed.

Lemma getPdNameFromGlobalMount_shape_witness :
  getPdNameFromGlobalMountN (-1) kubeletHost globalDir
  = ("aws://us-east-1a/vol-0123456789abcdef0", None) /\
  strings.Contains "aws://us-east-1a/vol-0123456789abcdef0" "../" = false.
Proof.
  split; [reflexivity|].
  exact (proj1 (getPdNameFromGlobalMount_shape (-1) kubeletHost globalDir
                  "aws://us-east-1a/vol-0123456789abcdef0"
                  ltac:(discriminate) eq_refl)).
Defined.

(** The mount root itself is accepted, and gives the name [.]. *)
Theorem getPdNameFromGlobalMount_mount_root :
  forall h : VolumeHost,
    getPdNameFromGlobalMount h
      (path.Join [GetPluginDir h awsPersistentDiskPluginName; "mounts"])
    = (".", None).
Proof.
  intros h. unfold getPdNameFromGlobalMount, getPdNameFromGlobalMountN, filepath.Rel. rewrite Join_base.
  rewrite Clean_render;
    [| discriminate | apply normal_mounts, pluginStack_normal].
  rewrite String.eqb_refl. reflexivity.
Qed.

Lemma Clean_trailing_slash (g : string) :
  g <> "" -> path.Clean (g ++ "/") = path.Clean g.
Proof.
  intros Hg. unfold path.Clean.
  destruct (String.eqb_spec (g ++ "/") "") as [E|_]; [destruct g; [congruence | discriminate E]|].
  destruct (String.eqb_spec g "") as [E|_]; [congruence|].
  rewrite isRooted_app by assumption.
  change (g ++ "/") with (g ++ String "/" "").
  rewrite SplitSlash_app_slash, cleanElems_app. reflexivity.
Qed.

(** The reverse mapping looks at the global path in its clean form only:
    two paths with the same clean form are accepted or rejected together
    and give the same name.  A trailing slash, in particular, changes
    nothing. *)
Theorem getPdNameFromGlobalMount_clean_form :
  forall (h : VolumeHost) (g g' : string),
    path.Clean g = path.Clean g' ->
    fst (getPdNameFromGlobalMount h g) = fst (getPdNameFromGlobalMount h g') /\
    (snd (getPdNameFromGlobalMount h g) = None <->
     snd (getPdNameFromGlobalMount h g') = None).
Proof.
  intros h g g' H. unfold getPdNameFromGlobalMount, getPdNameFromGlobalMountN, filepath.Rel. rewrite H.
  destruct (path.Clean g' =? _); [split; [reflexivity | tauto]|].
  destruct (negb _); [split; [reflexivity | cbn; split; discriminate]|].
  destruct (filepath.firstDiff _ _) as [[b t] k].
  destruct (k && _); [split; [reflexivity | cbn; split; discriminate]|].
  destruct (negb (filepath.isEmptyRest b)); cbn [fst snd];
    destruct (strings.Contains _ "../"); cbn [fst snd];
    (split; [reflexivity | split; first [discriminate | reflexivity]]).
Qed.

Lemma getPdNameFromGlobalMount_clean_form_witness :
  path.Clean (globalDir ++ "/") = path.Clean globalDir /\
  fst (getPdNameFromGlobalMount kubeletHost (globalDir ++ "/"))
  = fst (getPdNameFromGlobalMount kubeletHost globalDir).
Proof.
  assert (H : path.Clean (globalDir ++ "/") = path.Clean globalDir)
    by (apply Clean_trailing_slash; discriminate).
  split; [exact H|].
  exact (proj1 (getPdNameFromGlobalMount_clean_form kubeletHost _ _ H)).
Defined.

Lemma Join_app (a b : list string) :
  a <> [] -> b <> [] ->
  strings.Join (a ++ b) "/" = strings.Join a "/" ++ String "/" (strings.Join b "/").
Proof.
  intros Ha Hb. induction a as [|x a IH]; [congruence|].
  destruct a as [|y a'].
  - cbn [app]. now rewrite Join_cons.
  - cbn [app] in *. rewrite Join_cons by discriminate. rewrite IH by discriminate.
    rewrite (Join_cons x) by discriminate. cbn. now rewrite append_assoc.
Qed.

(** The global path of a clean name is, letter for letter, the mount
    root, a slash, and the name. *)
Lemma Join_targ_text (P J : string) :
  cleanName J = true ->
  path.Join [P; "mounts"; J] = path.Join [P; "mounts"] ++ String "/" J.
Proof.
  intros HJ. rewrite (Join_targ _ _ HJ), Join_base.
  pose proof (pluginStack_normal P) as NS.
  pose proof (normal_mounts _ _ NS) as NB.
  pose proof (cleanName_spec _ HJ) as Hp.
  pose proof (SplitSlash_elems_slashFree J) as Hs.
  pose proof (normal_push_plain _ _ _ Hp Hs NB) as NT.
  rewrite !render_stack; try assumption; try discriminate.
  - rewrite rev_app_distr, rev_involutive.
    rewrite Join_app; [| now apply rev_not_nil | apply SplitSlash_nonempty].
    rewrite Join_SplitSlash. now rewrite append_assoc.
  - intros E. apply app_eq_nil in E as [_ E]. discriminate E.
Qed.

Lemma append_inv_head (a b c : string) : a ++ b = a ++ c -> b = c.
Proof. induction a as [|x a IH]; cbn; [tauto | intros H; injection H as H; auto]. Qed.

(** Where a disk is mounted: under the mount root, at the name itself,
    or at [aws/] and the name for the identifier [aws://name]. *)
Theorem makeGlobalPDName_under_mounts :
  forall (h : VolumeHost) (name : string),
    cleanName name = true ->
    let root := path.Join [GetPluginDir h awsPersistentDiskPluginName; "mounts"] in
    makeGlobalPDName h name = root ++ "/" ++ name /\
    makeGlobalPDName h ("aws://" ++ name) = root ++ "/aws/" ++ name.
Proof.
  intros h name Hc root. subst root. unfold makeGlobalPDName. split.
  - rewrite (Replace_scheme_id _ Hc). now apply Join_targ_text.
  - rewrite (Replace_aws_forward _ Hc), (Join_targ_text _ _ (cleanName_aws _ Hc)).
    reflexivity.
Qed.

Lemma makeGlobalPDName_under_mounts_witness :
  cleanName "us-east-1a/vol-1" = true /\
  makeGlobalPDName kubeletHost "aws://us-east-1a/vol-1"
  = path.Join [GetPluginDir kubeletHost awsPersistentDiskPluginName; "mounts"]
    ++ "/aws/" ++ "us-east-1a/vol-1".
Proof.
  split; [reflexivity|].
  exact (proj2 (makeGlobalPDName_under_mounts kubeletHost "us-east-1a/vol-1" eq_refl)).
Defined.

(** Which identifiers share a global mount.  Two clean names with the
    same global path are the same name; so are [name1] and [name2] when
    [aws://name1] and [aws://name2] have the same global path; and a
    clean name has the global path of [aws://name2] only if it is
    [aws/name2], hence never when it does not start with [aws/]. *)
Theorem makeGlobalPDName_injective :
  forall (h : VolumeHost) (n1 n2 : string),
    cleanName n1 = true -> cleanName n2 = true ->
    (makeGlobalPDName h n1 = makeGlobalPDName h n2 -> n1 = n2) /\
    (makeGlobalPDName h ("aws://" ++ n1) = makeGlobalPDName h ("aws://" ++ n2) -> n1 = n2) /\
    (makeGlobalPDName h n1 = makeGlobalPDName h ("aws://" ++ n2) -> n1 = "aws/" ++ n2) /\
    (strings.HasPrefix n1 "aws/" = false ->
     makeGlobalPDName h n1 <> makeGlobalPDName h ("aws://" ++ n2)).
Proof.
  intros h n1 n2 H1 H2.
  assert (Hx : makeGlobalPDName h n1 = makeGlobalPDName h ("aws://" ++ n2) ->
               n1 = "aws/" ++ n2).
  { unfold makeGlobalPDName.
    rewrite (Replace_scheme_id _ H1), (Replace_aws_forward _ H2).
    rewrite (Join_targ_text _ _ H1), (Join_targ_text _ _ (cleanName_aws _ H2)).
    intros E. apply append_inv_head in E. now injection E. }
  unfold makeGlobalPDName. repeat split.
  - rewrite (Replace_scheme_id _ H1), (Replace_scheme_id _ H2).
    rewrite (Join_targ_text _ _ H1), (Join_targ_text _ _ H2).
    intros E. apply append_inv_head in E. now injection E.
  - rewrite (Replace_aws_forward _ H1), (Replace_aws_forward _ H2).
    rewrite (Join_targ_text _ _ (cleanName_aws _ H1)), (Join_targ_text _ _ (cleanName_aws _ H2)).
    intros E. apply append_inv_head in E. now injection E.
  - exact Hx.
  - intros Hp E. apply Hx in E. subst n1. discriminate Hp.
Qed.

Lemma makeGlobalPDName_injective_witness :
  cleanName "us-east-1a/vol-1" = true /\ cleanName "us-east-1a/vol-2" = true /\
  (makeGlobalPDName kubeletHost "aws://us-east-1a/vol-1"
   = makeGlobalPDName kubeletHost "aws://us-east-1a/vol-2" ->
   "us-east-1a/vol-1" = "us-east-1a/vol-2") /\
  makeGlobalPDName kubeletHost "us-east-1a/vol-1"
  <> makeGlobalPDName kubeletHost "aws://us-east-1a/vol-2".
Proof.
  split; [reflexivity|]. split; [reflexivity|].
  pose proof (makeGlobalPDName_injective kubeletHost "us-east-1a/vol-1"
                "us-east-1a/vol-2" eq_refl eq_refl) as [_ [H2 [_ H4]]].
  split; [exact H2 | exact (H4 eq_refl)].
Defined.

(** The forward mapping does not tell [aws://name] from [aws/name]: both
    are mounted at the same place.  The reverse mapping gives
    [aws://name] for that place when [aws/] does not occur in [name],
    whatever count its call of [strings.Replace] is read with, as long
    as the count allows a replacement. *)
Theorem makeGlobalPDName_aws_collision :
  forall (count : Z) (h : VolumeHost) (name : string),
    cleanName name = true ->
    makeGlobalPDName h ("aws/" ++ name) = makeGlobalPDName h ("aws://" ++ name) /\
    (count <> 0%Z ->
     strings.Contains name "../" = false ->
     strings.Contains name "aws/" = false ->
     getPdNameFromGlobalMountN count h (makeGlobalPDName h ("aws/" ++ name))
     = ("aws://" ++ name, None)).
Proof.
  intros count h name Hc.
  assert (E : makeGlobalPDName h ("aws/" ++ name) = makeGlobalPDName h ("aws://" ++ name)).
  { unfold makeGlobalPDName.
    now rewrite (Replace_aws_forward _ Hc), (Replace_scheme_id _ (cleanName_aws _ Hc)). }
  split; [exact E|].
  intros Hn Hd Ha.
  unfold getPdNameFromGlobalMountN, makeGlobalPDName.
  rewrite (Replace_scheme_id _ (cleanName_aws _ Hc)),
          (mapped_round_trip _ _ (cleanName_aws _ Hc)).
  assert (Hd' : strings.Contains ("aws/" ++ name) "../" = false) by exact Hd.
  rewrite Hd'.
  assert (Hp : strings.HasPrefix ("aws/" ++ name) "aws/" = true) by reflexivity.
  rewrite Hp, (Replace_aws_backward_any_count _ _ Hn Ha). reflexivity.
Qed.

Lemma makeGlobalPDName_aws_collision_witness :
  cleanName "vol-1" = true /\
  makeGlobalPDName kubeletHost "aws/vol-1" = makeGlobalPDName kubeletHost "aws://vol-1" /\
  getPdNameFromGlobalMountN 2 kubeletHost (makeGlobalPDName kubeletHost "aws/vol-1")
  = ("aws://vol-1", None).
Proof.
  split; [reflexivity|].
  pose proof (makeGlobalPDName_aws_collision 2 kubeletHost "vol-1" eq_refl) as [H1 H2].
  split; [exact H1 | exact (H2 ltac:(discriminate) eq_refl eq_refl)].
Defined.

(** * Properties of building a volume *)

Example Itoa_zero : strconv.Itoa 0 = "0". Proof. reflexivity. Qed.
Example Itoa_negative : strconv.Itoa (-15) = "-15". Proof. reflexivity. Qed.
Example Itoa_1024 : strconv.Itoa 1024 = "1024". Proof. reflexivity. Qed.

Example newBuilderInternal_diskSpec :
  newBuilderInternal kubeletPlugin diskSpec "poduid" = Some builderPD.
Proof. reflexivity. Qed.

Example newCleanerInternal_vol1 :
  newCleanerInternal kubeletPlugin "vol1" "poduid" = cleanerPD.
Proof. reflexivity. Qed.

Lemma to_int_not_nil (z : Z) :
  Z.to_int z <> Decimal.Pos Decimal.Nil /\ Z.to_int z <> Decimal.Neg Decimal.Nil.
Proof.
  destruct z as [|p|p]; cbn; split; try discriminate;
    intros H; injection H as H; now apply DecimalPos.Unsigned.to_uint_nonnil in H.
Qed.

Lemma Itoa_inj (z1 z2 : Z) : strconv.Itoa z1 = strconv.Itoa z2 -> z1 = z2.
Proof.
  unfold strconv.Itoa. intros H.
  apply (f_equal DecimalString.NilZero.int_of_string) in H.
  destruct (to_int_not_nil z1) as [A1 B1]. destruct (to_int_not_nil z2) as [A2 B2].
  rewrite !DecimalString.NilZero.isi in H by assumption.
  injection H as H. now apply DecimalZ.to_int_inj.
Qed.

Lemma Itoa_not_empty (z : Z) : strconv.Itoa z <> "".
Proof.
  unfold strconv.Itoa. intros H.
  apply (f_equal DecimalString.NilZero.int_of_string) in H.
  destruct (to_int_not_nil z) as [A B].
  rewrite DecimalString.NilZero.isi in H by assumption. discriminate H.
Qed.

(** A volume is built for exactly the specifications CanSupport accepts;
    for the others [newBuilderInternal] runs into the nil source.  What
    is built carries the specification's name, disk identifier,
    filesystem type and read-only flag, the pod it was asked for, and the
    plugin. *)
Theorem newBuilderInternal_supported :
  forall (plug : awsPersistentDiskPlugin) (spec : api.Volume) (uid : string),
    (CanSupport plug spec = true <->
     exists pd, newBuilderInternal plug spec uid = Some pd) /\
    (forall pd, newBuilderInternal plug spec uid = Some pd ->
       exists source,
         api.AWSPersistentDisk spec = Some source /\
         volName pd = api.Name spec /\ podUID pd = uid /\
         pdName pd = api.PDName source /\ fsType pd = api.FSType source /\
         readOnly pd = api.ReadOnly source /\ plugin pd = plug).
Proof.
  intros plug spec uid. unfold CanSupport, newBuilderInternal.
  destruct (api.AWSPersistentDisk spec) as [source|]; split.
  - split; [intros _; eexists; reflexivity | reflexivity].
  - intros pd H. injection H as <-. exists source. repeat split.
  - split; [discriminate | intros [pd H]; discriminate H].
  - intros pd H. discriminate H.
Qed.

(** The partition of a built volume is the empty string for partition
    number 0 and for no other; and volumes with the same partition string
    were built from the same partition number. *)
Theorem newBuilderInternal_partition :
  forall (plug1 plug2 : awsPersistentDiskPlugin) (spec1 spec2 : api.Volume)
         (uid1 uid2 : string) (pd1 pd2 : awsPersistentDisk)
         (source1 source2 : api.AWSPersistentDiskVolumeSource),
    api.AWSPersistentDisk spec1 = Some source1 ->
    api.AWSPersistentDisk spec2 = Some source2 ->
    newBuilderInternal plug1 spec1 uid1 = Some pd1 ->
    newBuilderInternal plug2 spec2 uid2 = Some pd2 ->
    (partition pd1 = "" <-> api.Partition source1 = 0%Z) /\
    (partition pd1 = partition pd2 -> api.Partition source1 = api.Partition source2).
Proof.
  intros plug1 plug2 spec1 spec2 uid1 uid2 pd1 pd2 source1 source2 S1 S2.
  unfold newBuilderInternal. rewrite S1, S2. intros H1 H2.
  injection H1 as <-. injection H2 as <-. cbn [partition].
  destruct (Z.eqb_spec (api.Partition source1) 0) as [E1|E1];
    destruct (Z.eqb_spec (api.Partition source2) 0) as [E2|E2]; cbn [negb].
  - split; [tauto | congruence].
  - split; [tauto|]. intros H. symmetry in H. now apply Itoa_not_empty in H.
  - split; [split; [intros H; now apply Itoa_not_empty in H | congruence]|].
    intros H. now apply Itoa_not_empty in H.
  - split; [split; [intros H; now apply Itoa_not_empty in H | congruence]|].
    apply Itoa_inj.
Qed.

Lemma newBuilderInternal_partition_witness :
  exists pd1 pd2 source1 source2,
    api.AWSPersistentDisk diskSpec = Some source1 /\
    api.AWSPersistentDisk partitionSpec = Some source2 /\
    newBuilderInternal kubeletPlugin diskSpec "poduid" = Some pd1 /\
    newBuilderInternal kubeletPlugin partitionSpec "poduid" = Some pd2 /\
    partition pd1 = "" /\ partition pd2 = "3" /\
    (partition pd1 = partition pd2 -> api.Partition source1 = api.Partition source2).
Proof.
  do 4 eexists.
  split; [reflexivity|]. split; [reflexivity|]. split; [reflexivity|].
  split; [reflexivity|]. split; [reflexivity|]. split; [reflexivity|].
  exact (proj2 (newBuilderInternal_partition kubeletPlugin kubeletPlugin diskSpec
                  partitionSpec "poduid" "poduid" _ _ _ _
                  eq_refl eq_refl eq_refl eq_refl)).
Defined.

(** * Set-up by a builder, tear-down by a cleaner *)

(** The volume built for set-up and the volume built for tear-down, for
    the same volume name and pod, have the same directory, though the
    second knows no disk identifier: TearDown starts by asking about the
    directory that SetUp binds the disk onto. *)
Theorem cleaner_builder_same_directory :
  forall (escape : string -> string) (plug : awsPersistentDiskPlugin)
         (spec : api.Volume) (uid : string) (pd : awsPersistentDisk),
    newBuilderInternal plug spec uid = Some pd ->
    let cleaner := newCleanerInternal plug (api.Name spec) uid in
    GetPath escape cleaner = GetPath escape pd /\
    (forall (e : env) source target fstype flags data merr,
       In (EvMount source target fstype flags data merr)
          (calls (exec (SetUp escape pd) e)) ->
       target = GetPath escape cleaner) /\
    (forall e : env,
       exists (b : bool) (q : option error),
         hd_error (calls (exec (TearDown escape cleaner) e))
         = Some (EvIsMountPoint (GetPath escape pd) b q)).
Proof.
  intros escape plug spec uid pd H cleaner. subst cleaner.
  unfold newBuilderInternal in H.
  destruct (api.AWSPersistentDisk spec) as [source|]; [|discriminate H].
  injection H as <-.
  assert (E : GetPath escape (newCleanerInternal plug (api.Name spec) uid)
              = GetPath escape
                  {| volName := api.Name spec; podUID := uid;
                     pdName := api.PDName source; fsType := api.FSType source;
                     partition := if negb (api.Partition source =? 0)%Z
                                  then strconv.Itoa (api.Partition source) else "";
                     readOnly := api.ReadOnly source; plugin := plug |})
    by reflexivity.
  split; [exact E|]. rewrite E. clear E.
  set (pd := {| volName := api.Name spec |}).
  set (dir := GetPath escape pd). split.
  - intros e source0 target fstype flags data merr.
    unfold SetUp. fold dir. unfold exec, SetUpAt, detachDiskLogError.
    explore e; intros Hin; in_cases Hin; injection Hin as _ <- _ _ _ _; reflexivity.
  - intros e. unfold TearDown.
    change (GetPath escape (newCleanerInternal plug (api.Name spec) uid)) with dir.
    unfold exec, TearDownAt, tearDownRecheck.
    explore e; eexists; eexists; reflexivity.
Qed.

Lemma cleaner_builder_same_directory_witness :
  newBuilderInternal kubeletPlugin diskSpec "poduid" = Some builderPD /\
  GetPath (fun s => strings.Replace s "/" "~" (-1))
          (newCleanerInternal kubeletPlugin "vol1" "poduid")
  = podDir.
Proof.
  split; [reflexivity|].
  exact (proj1 (cleaner_builder_same_directory (fun s => strings.Replace s "/" "~" (-1))
                  kubeletPlugin diskSpec "poduid" builderPD eq_refl)).
Defined.

(** For a disk identifier that comes back from the round trip through
    the path mapper: when a volume built for tear-down only finds, as the
    one reference, the global path at which set-up attaches that disk,
    and the unmount succeeds, it calls DetachDisk with that very disk
    identifier, and keeps it. *)
Theorem cleaner_detaches_attached_disk :
  forall (e : env) (plug : awsPersistentDiskPlugin) (volName0 uid dir id : string),
    getPdNameFromGlobalMount (host plug) (makeGlobalPDName (host plug) id) = (id, None) ->
    let cleaner := newCleanerInternal plug volName0 uid in
    let o := exec (TearDownAt cleaner dir) e in
    In (EvGetMountRefs dir [makeGlobalPDName (host plug) id] None) (calls o) ->
    In (EvUnmount dir 0 None) (calls o) ->
    (exists derr : option error,
       In (EvDetachDisk (set_pdName cleaner id) derr) (calls o)) /\
    pdName (snd (result o)) = id.
Proof.
  intros e plug volName0 uid dir id Hrt cleaner o. subst o.
  unfold exec, TearDownAt, tearDownRecheck.
  change (host (plugin cleaner)) with (host plug).
  explore e; intros H1 H2; in_cases H1; in_cases H2; injection H1 as ->;
    match goal with
    | H : getPdNameFromGlobalMount _ _ = _ |- _ => rewrite Hrt in H
    end;
    match goal with
    | H : (_, _) = (_, _) |- _ => first [discriminate H | injection H as <-]
    end;
    (split; [eexists; right; right; right; left; reflexivity | reflexivity]).
Qed.

Lemma cleaner_detaches_attached_disk_witness :
  let o := exec (TearDownAt (newCleanerInternal kubeletPlugin "vol1" "poduid") podDir)
             (script [RBool true; RRefs [globalDir]; ROk; ROk; RBool false; ROk]) in
  getPdNameFromGlobalMount kubeletHost (makeGlobalPDName kubeletHost (pdName builderPD))
  = (pdName builderPD, None) /\
  pdName (snd (result o)) = pdName builderPD.
Proof.
  split; [reflexivity|].
  refine (proj2 (cleaner_detaches_attached_disk
                   (script [RBool true; RRefs [globalDir]; ROk; ROk; RBool false; ROk])
                   kubeletPlugin "vol1" "poduid" podDir (pdName builderPD) eq_refl _ _)).
  - right; left; reflexivity.
  - right; right; left; reflexivity.
Defined.
